(** * Session / query-cache coordination of the admin frontend

    A shallow embedding of the hooks that tie the browser session token to
    the query cache:

    - [utils/auth.ts]            the token in [localStorage]
    - [queries/users.ts], [queries/items.ts]   query-key builders
    - [hooks/useItems.ts]        [getItemsQueryParams]
    - [hooks/useCurrentUser.ts]  the "current user" query
    - [hooks/useAuth.ts]         login / logout (two revisions)
    - [hooks/useCustomQuery.ts]  the authenticated query wrapper

    JavaScript objects used as dictionaries are finite maps, hook bodies
    are functions on an explicit [World], and every call into an external
    collaborator (query client, router, toast sink, HTTP client) leaves an
    [Event] in the world's trace. *)

From Stdlib Require Import ZArith.
From stdpp Require Import gmap strings list fin_maps.

Local Open Scope string_scope.
Local Open Scope list_scope.
Local Open Scope Z_scope.

(** ** JavaScript values *)

(** The untyped values that flow through [any]-typed code
    ([(err.body as any)?.detail], the argument of [setError]). *)
#[warnings="-register-all"]
Inductive JsValue : Type :=
  | JUndefined
  | JNull
  | JBool (b : bool)
  | JNum (z : Z)
  | JStr (s : string)
  | JArr (items : list JsValue)
  | JObj (fields : list (string * JsValue)).

(** The numbers of the pagination code as far as they are modelled:
    the integers, and [NaN] once [undefined] enters arithmetic.
    Fractional and infinite values and the rounding of binary64 are
    outside this model. *)
Inductive JsNumber : Type :=
  | Num (z : Z)
  | NaN.

(** [Array.isArray(v)] *)
Definition Array_isArray (v : JsValue) : bool :=
  match v with
  | JArr _ => true
  | _ => false
  end.

(** [typeof v === "string"] *)
Definition is_string (v : JsValue) : bool :=
  match v with
  | JStr _ => true
  | _ => false
  end.

Fixpoint assoc_get (name : string) (fields : list (string * JsValue)) : JsValue :=
  match fields with
  | [] => JUndefined
  | (k, v) :: rest => if String.eqb k name then v else assoc_get name rest
  end.

(** [v?.name]: optional chaining short-circuits on [null] and
    [undefined]; a property read on a primitive or on an array (for a
    non-index name other than [length]) yields [undefined]. *)
Definition opt_chain (v : JsValue) (name : string) : JsValue :=
  match v with
  | JObj fields => assoc_get name fields
  | _ => JUndefined
  end.

(** ** Query keys *)

(** A segment of a query key: a string literal or a flat parameter
    object such as [{ skip, limit }] or [{ page }]. *)
Inductive KeySeg : Type :=
  | KStr (s : string)
  | KObj (fields : list (string * Z)).

#[global] Instance KeySeg_eq_dec : EqDecision KeySeg.
Proof. solve_decision. Defined.

#[global] Instance KeySeg_countable : Countable KeySeg.
Proof.
  refine (inj_countable'
            (λ s, match s with KStr x => inl x | KObj f => inr f end)
            (λ e, match e with inl x => KStr x | inr f => KObj f end) _).
  by intros [].
Defined.

Abbreviation QueryKey := (list KeySeg).

(** ** The ambient world *)

(** [ApiError] of the generated client; [isAxiosError] is the outcome of
    [err instanceof AxiosError]. *)
Record ApiError : Type := mkApiError {
  status : Z;
  body : JsValue;
  message : string;
  isAxiosError : bool;
}.

(** What the query cache holds for one key. *)
Record QueryState : Type := mkQueryState {
  data : option JsValue;
  queryError : option ApiError;
  isInvalidated : bool;
}.

(** Calls into external collaborators, in program order.  [ELogout] is a
    ghost marker left at the entry of a [logout] body. *)
Inductive Event : Type :=
  | EInvalidateQueries (key : QueryKey)
  | ERemoveQueries (key : QueryKey)
  | ENavigate (to : string)
  | ERouterInvalidate
  | EToast (title : string) (msg : JsValue) (kind : string)
  | ERequest (endpoint : string)
  | ELogout.

Record World : Type := mkWorld {
  localStorage : gmap string string;
  queryCache : gmap QueryKey QueryState;
  authError : JsValue;          (* [useState<string | null>(null)] of useAuth *)
  trace : list Event;
}.

Definition set_localStorage (f : gmap string string → gmap string string) (w : World) : World :=
  mkWorld (f (localStorage w)) (queryCache w) (authError w) (trace w).

Definition set_queryCache (f : gmap QueryKey QueryState → gmap QueryKey QueryState) (w : World) : World :=
  mkWorld (localStorage w) (f (queryCache w)) (authError w) (trace w).

Definition set_authError (v : JsValue) (w : World) : World :=
  mkWorld (localStorage w) (queryCache w) v (trace w).

Definition emit (e : Event) (w : World) : World :=
  mkWorld (localStorage w) (queryCache w) (authError w) (trace w ++ [e]).

(** The events a transition from [w] to [w'] appended, when [w'] extends
    the trace of [w]. *)
Definition new_events (w w' : World) : list Event :=
  drop (length (trace w)) (trace w').

Definition is_logout (e : Event) : bool :=
  match e with ELogout => true | _ => false end.

Definition is_request (e : Event) : bool :=
  match e with ERequest _ => true | _ => false end.

Definition is_navigate_to (target : string) (e : Event) : bool :=
  match e with ENavigate to => String.eqb to target | _ => false end.

Definition count_events (p : Event → bool) (l : list Event) : nat :=
  length (List.filter p l).

(** ** utils/auth.ts *)

Module Auth.

(** [type AuthState = string | null] *)
Abbreviation AuthState := (option string).

(** [localStorage.getItem("authState")] *)
Definition getLocalAuthState (w : World) : AuthState :=
  localStorage w !! "authState".

Definition updateLocalAuthState (newState : AuthState) (w : World) : World :=
  match newState with
  | None => set_localStorage (delete "authState") w
  | Some s => set_localStorage (insert "authState" s) w
  end.

Definition getAuthToken (w : World) : option string :=
  getLocalAuthState w.

(** [getAuthToken() != null] *)
Definition isLoggedIn (w : World) : bool :=
  match getAuthToken w with
  | Some _ => true
  | None => false
  end.

End Auth.

(** ** The query client *)

(** A query filter [{ queryKey }] selects every cached query whose key
    starts with the filter key. *)
Definition matches (filter key : QueryKey) : bool :=
  bool_decide (filter `prefix_of` key).

Definition mark_invalidated (q : QueryState) : QueryState :=
  mkQueryState (data q) (queryError q) true.

(** Modelled from the spec: [queryClient.invalidateQueries] belongs to
    the query-cache library, which is not part of the sources.  Following
    the glossary ("mark a cached entry stale"), it flags every matching
    entry and keeps it in the cache.  This is the invalidation of a cache
    nobody observes; [invalidateQueries_observed] adds the refetch of
    observed entries. *)
Definition invalidateQueries (key : QueryKey) (w : World) : World :=
  emit (EInvalidateQueries key)
    (set_queryCache
       (map_imap (λ k q, Some (if matches key k then mark_invalidated q else q))) w).

(** Modelled from the spec: [queryClient.removeQueries] belongs to the
    same library.  Following the glossary ("drop a cached entry and any
    in-flight request state entirely"), it deletes every matching entry. *)
Definition removeQueries (key : QueryKey) (w : World) : World :=
  emit (ERemoveQueries key)
    (set_queryCache (filter (λ kq, matches key kq.1 = false)) w).

(** ** queries/users.ts and queries/items.ts *)

Module usersKeys.

Definition all : QueryKey := [KStr "users"].

Definition current : QueryKey := all ++ [KStr "current"].

Definition paginated (page : Z) : QueryKey := all ++ [KObj [("page", page)]].

End usersKeys.

Module itemKeys.

Definition all : QueryKey := [KStr "items"].

(** [query: (options) => [...itemKeys.all, options]] *)
Definition query (options : list (string * Z)) : QueryKey :=
  all ++ [KObj options].

End itemKeys.

(** ** hooks/useItems.ts *)

Module useItems.

(** [QueryOptions]: [limit] is required, [page] and [skip] are optional
    properties ([None] is [undefined]); the numbers are integer-valued. *)
Record QueryOptions : Type := mkQueryOptions {
  limit : Z;
  page : option Z;
  skip : option Z;
}.

(** The returned [{ skip, limit }]. *)
Record QueryParams : Type := mkQueryParams {
  params_skip : JsNumber;
  params_limit : Z;
}.

(** [ToNumber] of an optional numeric property. *)
Definition to_number (v : option Z) : JsNumber :=
  match v with
  | Some z => Num z
  | None => NaN
  end.

Definition js_sub (a b : JsNumber) : JsNumber :=
  match a, b with
  | Num x, Num y => Num (x - y)
  | _, _ => NaN
  end.

Definition js_mul (a b : JsNumber) : JsNumber :=
  match a, b with
  | Num x, Num y => Num (x * y)
  | _, _ => NaN
  end.

(** [return { skip: skip ?? (page - 1) * limit, limit }] *)
Definition getItemsQueryParams (o : QueryOptions) : QueryParams :=
  {| params_skip :=
       match skip o with
       | Some s => Num s
       | None => js_mul (js_sub (to_number (page o)) (Num 1)) (Num (limit o))
       end;
     params_limit := limit o |}.

End useItems.

(** ** Outcomes of remote calls *)

(** A settled promise of the HTTP client: the resolved value or the
    [ApiError] it rejected with. *)
Inductive Outcome (A : Type) : Type :=
  | Resolved (a : A)
  | Rejected (e : ApiError).

Arguments Resolved {A} a.
Arguments Rejected {A} e.

(** [error?.status === 401] for [error : ApiError | null] *)
Definition status_is_401 (error : option ApiError) : bool :=
  match error with
  | Some e => Z.eqb (status e) 401
  | None => false
  end.

(** ** hooks/useCurrentUser.ts *)

Module useCurrentUser.

(** [options?.queryKey || ["users", "current"]]: an empty array is
    truthy, so only a missing key falls back. *)
Definition queryKey (props : option QueryKey) : QueryKey :=
  match props with
  | Some k => k
  | None => [KStr "users"; KStr "current"]
  end.

(** [error.status === 401 ? false : retryCount <= 3] *)
Definition retry (retryCount : Z) (error : ApiError) : bool :=
  if Z.eqb (status error) 401 then false else Z.leb retryCount 3.

Definition invalidate (props : option QueryKey) (w : World) : World :=
  invalidateQueries (queryKey props) w.

Definition remove (props : option QueryKey) (w : World) : World :=
  removeQueries (queryKey props) w.

End useCurrentUser.

(** ** hooks/useAuth.ts *)

(** [err.body?.detail], replaced by [err.message] for an [AxiosError]. *)
Definition error_detail (err : ApiError) : JsValue :=
  let errDetail := opt_chain (body err) "detail" in
  if isAxiosError err then JStr (message err) else errDetail.

Definition navigate (to : string) (w : World) : World :=
  emit (ENavigate to) w.

Definition showToast (title : string) (msg : JsValue) (kind : string) (w : World) : World :=
  emit (EToast title msg kind) w.

Module useAuth.

(** [signUpMutation]: [onSuccess] or [onError], then [onSettled]. *)
Definition signUp_onSuccess (w : World) : World :=
  showToast "Account created." (JStr "Your account has been created successfully.")
    "success" (navigate "/login" w).

Definition signUp_onError (err : ApiError) (w : World) : World :=
  showToast "Something went wrong." (error_detail err) "error" w.

Definition signUp_onSettled (w : World) : World :=
  invalidateQueries [KStr "users"] w.

Definition signUpMutation (response : Outcome unit) (w : World) : World :=
  let w := emit (ERequest "UsersService.registerUser") w in
  let w := match response with
           | Resolved _ => signUp_onSuccess w
           | Rejected err => signUp_onError err w
           end in
  signUp_onSettled w.

(** [login]: the awaited request either yields the token, which is then
    stored, or throws before [updateLocalAuthState] is reached. *)
Definition login (response : Outcome string) (w : World) : Outcome unit * World :=
  let w := emit (ERequest "LoginService.loginAccessToken") w in
  match response with
  | Resolved access_token =>
      (Resolved tt, Auth.updateLocalAuthState (Some access_token) w)
  | Rejected err => (Rejected err, w)
  end.

Definition login_onSuccess (w : World) : World :=
  navigate "/" w.

Definition login_onError (err : ApiError) (w : World) : World :=
  let errDetail := error_detail err in
  let errDetail :=
    if Array_isArray errDetail then JStr "Something went wrong" else errDetail in
  set_authError errDetail w.

Definition loginMutation (response : Outcome string) (w : World) : World :=
  match login response w with
  | (Resolved _, w) => login_onSuccess w
  | (Rejected err, w) => login_onError err w
  end.

Definition logout (w : World) : World :=
  let w := emit ELogout w in
  let w := Auth.updateLocalAuthState None w in
  let w := invalidateQueries usersKeys.current w in
  navigate "/login" w.

(** [resetError: () => setError(null)] *)
Definition resetError (w : World) : World :=
  set_authError JNull w.

End useAuth.

(** ** hooks/useAuth.ts, router-based revision

    The revision of the same hook that keeps the token under
    ["access_token"], exports [isLoggedIn] itself and refreshes the
    router instead of navigating. *)

Module useAuthRouter.

(** [localStorage.getItem("access_token") !== null] *)
Definition isLoggedIn (w : World) : bool :=
  match localStorage w !! "access_token" with
  | Some _ => true
  | None => false
  end.

Definition router_invalidate (w : World) : World :=
  emit ERouterInvalidate w.

Definition login_onSuccess (access_token : string) (w : World) : World :=
  router_invalidate (set_localStorage (insert "access_token" access_token) w).

Definition login_onError (err : ApiError) (w : World) : World :=
  let errDetail := error_detail err in
  let errDetail :=
    if Array_isArray errDetail then JStr "Something went wrong" else errDetail in
  set_authError errDetail w.

Definition loginMutation (response : Outcome string) (w : World) : World :=
  let w := emit (ERequest "LoginService.loginAccessToken") w in
  match response with
  | Resolved access_token => login_onSuccess access_token w
  | Rejected err => login_onError err w
  end.

(** [removeUserQuery] is the [remove] returned by [useCurrentUser]
    (the revision of that hook which returns one), called with no
    [queryKey]. *)
Definition logout (w : World) : World :=
  let w := emit ELogout w in
  let w := set_localStorage (delete "access_token") w in
  let w := useCurrentUser.remove None w in
  router_invalidate w.

(** The effect on [userError]. *)
Definition userError_effect (userError : option ApiError) (w : World) : World :=
  if status_is_401 userError && isLoggedIn w then logout w else w.

Definition resetError (w : World) : World :=
  set_authError JNull w.

End useAuthRouter.

(** ** hooks/useCustomQuery.ts *)

(** A property of a returned hook object: a plain value, the query
    error, or a callable operation on the world. *)
Inductive Field : Type :=
  | FVal (v : JsValue)
  | FError (e : option ApiError)
  | FAction (run : World → World).

(** The value of the [retry] option. *)
Inductive RetryOption : Type :=
  | RetryBool (b : bool)
  | RetryNumber (n : Z)
  | RetryFn (f : Z → ApiError → bool).

(** The caller's options object ([o_] prefixes its properties).
    [enabled] and [retry] are optional
    properties: the outer [option] says whether the object has the
    property at all, the inner one of [enabled] whether its value is
    [undefined]. *)
Record UseQueryOptions : Type := mkUseQueryOptions {
  o_queryKey : QueryKey;
  o_enabled : option (option bool);
  o_retry : option RetryOption;
}.

(** The options object handed to [useQuery]. *)
Record MergedOptions : Type := mkMergedOptions {
  merged_queryKey : QueryKey;
  merged_enabled : option bool;
  merged_retry : RetryOption;
}.

(** A query is disabled only by [enabled: false]; a missing or
    [undefined] value leaves it enabled. *)
Definition is_enabled (m : MergedOptions) : bool :=
  match merged_enabled m with
  | Some false => false
  | _ => true
  end.

(** The cached state after a settled read: a value replaces the old
    one, an error is recorded next to the last value. *)
Definition store_outcome (outcome : Outcome JsValue) (old : option QueryState) : QueryState :=
  match outcome with
  | Resolved v => mkQueryState (Some v) None false
  | Rejected e => mkQueryState (old ≫= data) (Some e) false
  end.

(** Modelled from the spec: [useQuery] belongs to the query-cache
    library, which is not part of the sources.  A disabled query is
    created without a network call and without a cached value update;
    an enabled one runs its read, and [outcome] (the settled result,
    after whatever retries the library made) is stored under the query
    key. *)
Definition useQuery (m : MergedOptions) (outcome : Outcome JsValue) (w : World) : World :=
  if is_enabled m then
    let k := merged_queryKey m in
    set_queryCache (λ c, <[k := store_outcome outcome (c !! k)]> c)
      (emit (ERequest "queryFn") w)
  else w.

(** Modelled from the spec: the read result of [useQuery] carries
    [data], [isLoading], [isError] and [error]. *)
Definition useQuery_result (m : MergedOptions) (w : World) : gmap string Field :=
  let st := queryCache w !! merged_queryKey m in
  let err := st ≫= queryError in
  {[ "data" := FVal (default JUndefined (st ≫= data));
     "error" := FError err;
     "isError" := FVal (JBool (bool_decide (is_Some err)));
     "isLoading" := FVal (JBool (is_enabled m && bool_decide (st = None))) ]}.

(** The two hook revisions [useCustomQuery] can be linked against
    through [import useAuth, { isLoggedIn } from "./useAuth.ts"]. *)
Inductive AuthRevision : Type :=
  | NavigateRevision
  | RouterRevision.

Definition isLoggedIn (r : AuthRevision) : World → bool :=
  match r with
  | NavigateRevision => Auth.isLoggedIn
  | RouterRevision => useAuthRouter.isLoggedIn
  end.

Definition logout (r : AuthRevision) : World → World :=
  match r with
  | NavigateRevision => useAuth.logout
  | RouterRevision => useAuthRouter.logout
  end.

Module useCustomQuery.

(** [error.status === 401 ? false : retryCount <= 3] *)
Definition retry (retryCount : Z) (error : ApiError) : bool :=
  if Z.eqb (status error) 401 then false else Z.leb retryCount 3.

(** [{ enabled: isLoggedIn(), retry: ..., ...options }]: a property the
    caller's object has replaces the default written before the spread. *)
Definition merged_options (r : AuthRevision) (options : UseQueryOptions) (w : World)
  : MergedOptions :=
  {| merged_queryKey := o_queryKey options;
     merged_enabled := default (Some (isLoggedIn r w)) (o_enabled options);
     merged_retry := default (RetryFn retry) (o_retry options) |}.

Definition invalidate (options : UseQueryOptions) (w : World) : World :=
  invalidateQueries (o_queryKey options) w.

Definition remove (options : UseQueryOptions) (w : World) : World :=
  removeQueries (o_queryKey options) w.

(** The body of the effect on [error], run to the end of its promise
    chain [invalidate().then(() => remove()).then(logout)] without another
    effect in between, on the context client.  [useCustomQueryHook] has
    the chain in its two parts and the [queryClient] argument. *)
Definition effect (r : AuthRevision) (options : UseQueryOptions)
    (error : option ApiError) (w : World) : World :=
  if status_is_401 error && isLoggedIn r w then
    logout r (remove options (invalidate options w))
  else if status_is_401 error && negb (isLoggedIn r w) then
    remove options w
  else w.

(** [const { error, ...query } = useQuery(...)] followed by
    [return { error, ...query, invalidate }], for a [useQuery] result
    [q]. *)
Definition returned (options : UseQueryOptions) (q : gmap string Field)
  : gmap string Field :=
  let error := default (FVal JUndefined) (q !! "error") in
  let query := delete "error" q in
  <["invalidate" := FAction (invalidate options)]> (query ∪ {[ "error" := error ]}).

(** One render of the wrapped query alone, in the context client: the
    query is created from the merged options and the hook object is built
    from its result.  [useCustomQueryHook.render] adds the [useAuth()]
    call and the [queryClient] argument. *)
Definition render (r : AuthRevision) (options : UseQueryOptions)
    (outcome : Outcome JsValue) (w : World) : gmap string Field * World :=
  let m := merged_options r options w in
  let w' := useQuery m outcome w in
  (returned options (useQuery_result m w'), w').

End useCustomQuery.

(** The number of retries a predicate grants to a caller that passes
    [first] on the first failure and one more on each further failure
    of the same error, looking at no more than [fuel] failures. *)
Fixpoint granted_retries (p : Z → ApiError → bool) (first : Z) (error : ApiError)
    (fuel : nat) : nat :=
  match fuel with
  | O => O
  | S n => if p first error then S (granted_retries p (first + 1) error n) else O
  end.

(** ** Sample data *)

Definition sample_user : JsValue :=
  JObj [("email", JStr "admin@example.com"); ("is_active", JBool true)].

Definition cached_user : QueryState := mkQueryState (Some sample_user) None false.

Definition items_page_1 : QueryKey := itemKeys.query [("skip", 0); ("limit", 5)].

Definition cached_items : QueryState := mkQueryState (Some (JArr [])) None false.

(** A signed-in session (the token is stored under the key of either
    revision) with the current user and one page of items cached. *)
Definition signed_in_world : World :=
  mkWorld {[ "authState" := "token"; "access_token" := "token" ]}
          {[ usersKeys.current := cached_user; items_page_1 := cached_items ]}
          JNull [].

(** A fresh anonymous session. *)
Definition anonymous_world : World := mkWorld ∅ ∅ JNull [].

Definition unauthorized : ApiError :=
  mkApiError 401 (JObj [("detail", JStr "Could not validate credentials")])
             "Unauthorized" false.

(** ** The logout contract as the specification words it *)

(** Token cleared, current-user entry absent (not merely stale), one
    navigation to the login entry point. *)
Definition logout_removes_current_user (r : AuthRevision) : Prop :=
  ∀ w : World,
    let w' := logout r w in
    isLoggedIn r w' = false
    ∧ queryCache w' !! usersKeys.current = None
    ∧ count_events (is_navigate_to "/login") (new_events w w') = 1%nat.

(** The caller's options of a wrapped items query: only the key. *)
Definition items_options : UseQueryOptions :=
  mkUseQueryOptions items_page_1 None None.

(** Options whose [enabled] the caller sets to [true]. *)
Definition forced_options : UseQueryOptions :=
  mkUseQueryOptions items_page_1 (Some (Some true)) None.

(** Failed logins: wrong credentials, a validation error, a transport
    failure, and a server error with a plain-text body. *)
Definition bad_credentials : ApiError :=
  mkApiError 400 (JObj [("detail", JStr "Incorrect email or password")])
             "Bad Request" false.

Definition validation_error : ApiError :=
  mkApiError 422
    (JObj [("detail", JArr [JObj [("msg", JStr "field required")]])])
    "Unprocessable Entity" false.

Definition network_error : ApiError :=
  mkApiError 0 JUndefined "Network Error" true.

Definition server_error : ApiError :=
  mkApiError 500 (JStr "Internal Server Error") "Internal Server Error" false.

Definition is_navigate (e : Event) : bool :=
  match e with ENavigate _ => true | _ => false end.

(** ** The wrapper and login contracts as the specification words them *)

(** The query is disabled whenever the token is absent, whatever the
    caller's options: no request, no cache update. *)
Definition gated_for_all_options (r : AuthRevision) : Prop :=
  ∀ (options : UseQueryOptions) (outcome : Outcome JsValue) (w : World),
    isLoggedIn r w = false →
    is_enabled (useCustomQuery.merged_options r options w) = false
    ∧ (useCustomQuery.render r options outcome w).2 = w.

(** The returned hook object has both [invalidate] and [remove]. *)
Definition exposes_invalidate_and_remove (r : AuthRevision) : Prop :=
  ∀ (options : UseQueryOptions) (outcome : Outcome JsValue) (w : World),
    let obj := (useCustomQuery.render r options outcome w).1 in
    is_Some (obj !! "invalidate") ∧ is_Some (obj !! "remove").

(** Every failed login leaves the token alone, navigates nowhere and
    stores a string as the controller's error. *)
Definition failed_login_stores_string
    (loginMutation : Outcome string → World → World) : Prop :=
  ∀ (err : ApiError) (w : World),
    let w' := loginMutation (Rejected err) w in
    localStorage w' = localStorage w
    ∧ count_events is_navigate (new_events w w') = 0%nat
    ∧ is_string (authError w') = true.

(** ** hooks/useCurrentUser.ts, the query itself *)

Module useCurrentUserQuery.

(** The options the hook hands to [useQuery]: the key, the caller's
    [enabled] as it is ([None] when the caller gave none), and the retry
    predicate. *)
Definition options (queryKey : option QueryKey) (enabled : option bool) : MergedOptions :=
  mkMergedOptions (useCurrentUser.queryKey queryKey) enabled
                  (RetryFn useCurrentUser.retry).

Definition render (queryKey : option QueryKey) (enabled : option bool)
    (outcome : Outcome JsValue) (w : World) : World :=
  useQuery (options queryKey enabled) outcome w.

(** [props?.queryKey || ["currentUser"]], the key of the revisions that
    do not build it from [usersKeys]. *)
Definition legacy_queryKey (props : option QueryKey) : QueryKey :=
  match props with
  | Some k => k
  | None => [KStr "currentUser"]
  end.

End useCurrentUserQuery.

(** [useCurrentUser({ enabled: isLoggedIn() })] as rendered by [useAuth]. *)
Definition useAuth_currentUser (r : AuthRevision) (outcome : Outcome JsValue)
    (w : World) : World :=
  useCurrentUserQuery.render None (Some (isLoggedIn r w)) outcome w.

(** ** hooks/useItems.ts, the hook *)

(** Modelled from the spec: [queryClient.prefetchQuery] belongs to the
    query-cache library.  It "populates the cache ahead of navigation":
    the read runs and its settled outcome is stored under the key. *)
Definition prefetchQuery (key : QueryKey) (outcome : Outcome JsValue) (w : World) : World :=
  set_queryCache (λ c, <[key := store_outcome outcome (c !! key)]> c)
    (emit (ERequest "queryFn") w).

Module useItemsHook.

Import useItems.

(** The [{ skip, limit }] object as a key segment.  A [NaN] skip has no
    integer to stand for it and is left out, which keeps it apart from
    every numeric skip. *)
Definition params_object (p : QueryParams) : list (string * Z) :=
  match params_skip p with
  | Num s => [("skip", s); ("limit", params_limit p)]
  | NaN => [("limit", params_limit p)]
  end.

(** The numeric properties the caller's [queryOptions] object has. *)
Definition options_object (o : QueryOptions) : list (string * Z) :=
  [("limit", limit o)]
  ++ match page o with Some p => [("page", p)] | None => [] end
  ++ match skip o with Some s => [("skip", s)] | None => [] end.

(** [const queryKey = _queryKey ?? itemKeys.query(queryParams)] *)
Definition queryKey (_queryKey : option QueryKey) (o : QueryOptions) : QueryKey :=
  match _queryKey with
  | Some k => k
  | None => itemKeys.query (params_object (getItemsQueryParams o))
  end.

(** The argument of [ItemsService.readItems] in [fetchItems({})]: the
    hook's [queryOptions] (the default of [__queryOptions]). *)
Definition fetchItems_request (o : QueryOptions) : list (string * Z) :=
  options_object o.

(** [fetchItems({})]: a plain [useQuery] with the hook's key and neither
    [enabled] nor [retry] (the retry count written here is the library's
    default and plays no role in the model). *)
Definition fetchItems (_queryKey : option QueryKey) (o : QueryOptions)
    (outcome : Outcome JsValue) (w : World) : World :=
  useQuery (mkMergedOptions (queryKey _queryKey o) None (RetryNumber 3)) outcome w.

(** [const _queryParams = getItemsQueryParams({ page, limit })] *)
Definition prefetchItems_params (page limit : Z) : QueryParams :=
  getItemsQueryParams (mkQueryOptions limit (Some page) None).

(** The argument of [ItemsService.readItems] in [prefetchItems]. *)
Definition prefetchItems_request (page limit : Z) : list (string * Z) :=
  params_object (prefetchItems_params page limit).

Definition prefetchItems_key (page limit : Z) : QueryKey :=
  itemKeys.query (params_object (prefetchItems_params page limit)).

Definition prefetchItems (page limit : Z) (outcome : Outcome JsValue) (w : World) : World :=
  prefetchQuery (prefetchItems_key page limit) outcome w.

End useItemsHook.

(** ** routes/_layout/items.tsx *)

Module ItemsRoute.

Definition PER_PAGE : Z := 5.

(** [!isPlaceholderData && (items?.count ?? 0) > page * limit], for
    integer-valued [page] and [limit]; [count] is [None] while [items] is
    [undefined]. *)
Definition hasNextPage (isPlaceholderData : bool) (count : option Z) (page limit : Z) : bool :=
  negb isPlaceholderData && Z.ltb (page * limit) (default 0 count).

(** The effect that prefetches the next page. *)
Definition prefetch_effect (isPlaceholderData : bool) (count : option Z) (page : Z)
    (outcome : Outcome JsValue) (w : World) : World :=
  if hasNextPage isPlaceholderData count page PER_PAGE
  then useItemsHook.prefetchItems (page + 1) PER_PAGE outcome w
  else w.

(** The "Next" button: the page handed to [setPage], or [None] when
    the button is disabled. *)
Definition next_click (isPlaceholderData : bool) (count : option Z) (page : Z) : option Z :=
  if hasNextPage isPlaceholderData count page PER_PAGE then Some (page + 1) else None.

(** [!item.description]: a missing or empty description is falsy. *)
Definition falsy_description (description : option string) : bool :=
  match description with
  | Some (String _ _) => false
  | _ => true
  end.

(** [item.description || "N/A"] *)
Definition description_text (description : option string) : string :=
  match description with
  | Some (String c rest) => String c rest
  | _ => "N/A"
  end.

(** [color={!item.description ? "ui.dim" : "inherit"}] *)
Definition description_color (description : option string) : string :=
  if falsy_description description then "ui.dim" else "inherit".

End ItemsRoute.

(** ** Invalidation of observed queries *)

(** The number of cached entries under [key] that have a mounted,
    enabled observer; [observed] is the set of keys so observed. *)
Definition refetch_count (observed : gset QueryKey) (key : QueryKey) (w : World) : nat :=
  size (filter (λ kq, matches key kq.1 = true ∧ kq.1 ∈ observed) (queryCache w)).

Definition emit_requests (n : nat) (w : World) : World :=
  mkWorld (localStorage w) (queryCache w) (authError w)
          (trace w ++ replicate n (ERequest "queryFn")).

(** Modelled from the spec: [queryClient.invalidateQueries] with the
    refetch the glossary gives it ("mark a cached entry stale, prompting
    a background refetch for active observers"): every matching entry is
    flagged, and each one that is observed is requested again.  The
    answers arrive later and are not part of this step. *)
Definition invalidateQueries_observed (observed : gset QueryKey) (key : QueryKey)
    (w : World) : World :=
  emit_requests (refetch_count observed key w) (invalidateQueries key w).

(** The observer [useAuth] mounts through
    [useCurrentUser({ enabled: isLoggedIn() })]: enabled only when the
    hook was rendered on a logged-in session [w]. *)
Definition useAuth_observers (w : World) : gset QueryKey :=
  if Auth.isLoggedIn w then {[ usersKeys.current ]} else ∅.

(** [logout] of [hooks/useAuth.ts] with the refetching invalidation. *)
Definition useAuth_logout_observed (observed : gset QueryKey) (w : World) : World :=
  let w := emit ELogout w in
  let w := Auth.updateLocalAuthState None w in
  let w := invalidateQueries_observed observed usersKeys.current w in
  navigate "/login" w.

(** The logout contract as worded: on a session without a token,
    [logout] sends no request, whatever is observed. *)
Definition logout_again_is_silent : Prop :=
  ∀ (observed : gset QueryKey) (w : World),
    Auth.isLoggedIn w = false →
    count_events is_request (new_events w (useAuth_logout_observed observed w)) = 0%nat.

(** ** hooks/useCustomQuery.ts, the hook over time *)

Module useCustomQueryHook.

(** What one mounted wrapper acts on: the world of the context query
    client ([useQueryClient()]), the cache of the [queryClient] argument
    when the caller passes one, and the number of reaction chains whose
    [invalidate()] promise has not settled yet. *)
Record Hook : Type := mkHook {
  ambient : World;
  passed_client : option (gmap QueryKey QueryState);
  pending_chains : nat;
}.

(** [useQuery(options, queryClient)]: the query lives in the passed
    client when there is one, in the context client otherwise. *)
Definition useQuery_in (m : MergedOptions) (outcome : Outcome JsValue) (h : Hook) : Hook :=
  match passed_client h with
  | None => mkHook (useQuery m outcome (ambient h)) None (pending_chains h)
  | Some c =>
      if is_enabled m then
        let k := merged_queryKey m in
        mkHook (emit (ERequest "queryFn") (ambient h))
               (Some (<[k := store_outcome outcome (c !! k)]> c))
               (pending_chains h)
      else h
  end.

(** One render: [useAuth()] renders the current-user query in the
    context client, then the wrapped query is created from the merged
    options. *)
Definition render (r : AuthRevision) (options : UseQueryOptions)
    (user_outcome outcome : Outcome JsValue) (h : Hook) : Hook :=
  let w := useAuth_currentUser r user_outcome (ambient h) in
  let m := useCustomQuery.merged_options r options w in
  useQuery_in m outcome (mkHook w (passed_client h) (pending_chains h)).

(** The cached state of the wrapped query, read where the query lives. *)
Definition query_state (options : UseQueryOptions) (h : Hook) : option QueryState :=
  match passed_client h with
  | None => queryCache (ambient h) !! o_queryKey options
  | Some c => c !! o_queryKey options
  end.

(** The body of the effect up to the first [await]: on a 401 of a
    logged-in session [invalidate()] is called on the context client and
    the rest of the chain waits for its promise; on a 401 of a logged-out
    session [remove()] is called on the context client. *)
Definition effect_run (r : AuthRevision) (options : UseQueryOptions)
    (error : option ApiError) (h : Hook) : Hook :=
  if status_is_401 error && isLoggedIn r (ambient h) then
    mkHook (useCustomQuery.invalidate options (ambient h)) (passed_client h)
           (S (pending_chains h))
  else if status_is_401 error && negb (isLoggedIn r (ambient h)) then
    mkHook (useCustomQuery.remove options (ambient h)) (passed_client h)
           (pending_chains h)
  else h.

(** [.then(() => remove()).then(logout)] of one waiting chain. *)
Definition chain_settle (r : AuthRevision) (options : UseQueryOptions) (h : Hook) : Hook :=
  match pending_chains h with
  | O => h
  | S n =>
      mkHook (logout r (useCustomQuery.remove options (ambient h))) (passed_client h) n
  end.

(** What can happen to a mounted wrapper: a render runs the effect (its
    dependency [logout] is a new function on every render), or the
    promise of a waiting chain settles. *)
Inductive Step : Type :=
  | EffectRuns (error : option ApiError)
  | ChainSettles.

Definition step (r : AuthRevision) (options : UseQueryOptions) (h : Hook) (s : Step) : Hook :=
  match s with
  | EffectRuns error => effect_run r options error h
  | ChainSettles => chain_settle r options h
  end.

Definition run (r : AuthRevision) (options : UseQueryOptions) (steps : list Step)
    (h : Hook) : Hook :=
  foldl (step r options) h steps.

End useCustomQueryHook.


(** The retry contract as worded: at most three retries are granted,
    for a caller that passes [first] on the first failure. *)
Definition grants_at_most_three (first : Z) : Prop :=
  ∀ (error : ApiError) (fuel : nat),
    (granted_retries useCustomQuery.retry first error fuel ≤ 3)%nat.


(** * Properties *)

(** ** The session store *)

Section SessionStore.

Implicit Types (w : World) (t : string).

Lemma getLocalAuthState_update w (s : Auth.AuthState) :
  Auth.getLocalAuthState (Auth.updateLocalAuthState s w) = s.
Proof.
  destruct s as [t|]; unfold Auth.getLocalAuthState; simpl.
  - apply lookup_insert_eq.
  - apply lookup_delete_eq.
Qed.

Lemma isLoggedIn_update w (s : Auth.AuthState) :
  Auth.isLoggedIn (Auth.updateLocalAuthState s w) = bool_decide (is_Some s).
Proof.
  unfold Auth.isLoggedIn, Auth.getAuthToken.
  rewrite getLocalAuthState_update. by destruct s.
Qed.

Lemma updateLocalAuthState_clear_twice w :
  Auth.updateLocalAuthState None (Auth.updateLocalAuthState None w)
  = Auth.updateLocalAuthState None w.
Proof.
  unfold Auth.updateLocalAuthState, set_localStorage; simpl.
  f_equal. apply delete_id, lookup_delete_eq.
Qed.

Lemma updateLocalAuthState_other_keys w (s : Auth.AuthState) (k : string) :
  k ≠ "authState" →
  localStorage (Auth.updateLocalAuthState s w) !! k = localStorage w !! k.
Proof.
  intros Hk. destruct s; simpl.
  - by rewrite lookup_insert_ne.
  - by rewrite lookup_delete_ne.
Qed.

(** C5: after [updateLocalAuthState(t)] the store reads back [t] and
    [isLoggedIn()] is true; after [updateLocalAuthState(null)] it reads
    back [null] and [isLoggedIn()] is false; clearing a cleared store
    changes nothing. *)
Theorem session_store_set_get_clear :
  (∀ t w,
     let w' := Auth.updateLocalAuthState (Some t) w in
     Auth.getLocalAuthState w' = Some t ∧ Auth.getAuthToken w' = Some t
     ∧ Auth.isLoggedIn w' = true)
  ∧ (∀ w,
       let w' := Auth.updateLocalAuthState None w in
       Auth.getLocalAuthState w' = None ∧ Auth.getAuthToken w' = None
       ∧ Auth.isLoggedIn w' = false
       ∧ Auth.updateLocalAuthState None w' = w').
Proof.
  split.
  - intros t w w'. subst w'. unfold Auth.getAuthToken.
    rewrite isLoggedIn_update, getLocalAuthState_update. done.
  - intros w w'. subst w'. unfold Auth.getAuthToken.
    rewrite isLoggedIn_update, getLocalAuthState_update.
    rewrite updateLocalAuthState_clear_twice. done.
Qed.

(** C10: [isLoggedIn()] is false exactly when nothing is stored, so
    every stored string, the empty one included, counts as logged in. *)
Theorem isLoggedIn_iff_token_present :
  (∀ w, Auth.isLoggedIn w = false ↔ Auth.getAuthToken w = None)
  ∧ (∀ t w,
       let w' := Auth.updateLocalAuthState (Some t) w in
       Auth.getAuthToken w' = Some t ∧ Auth.isLoggedIn w' = true)
  ∧ (∀ w,
       let w' := Auth.updateLocalAuthState (Some EmptyString) w in
       Auth.getAuthToken w' = Some EmptyString ∧ Auth.isLoggedIn w' = true).
Proof.
  split; [|split].
  - intros w. unfold Auth.isLoggedIn.
    destruct (Auth.getAuthToken w); split; congruence.
  - intros t w w'. subst w'. unfold Auth.getAuthToken.
    by rewrite isLoggedIn_update, getLocalAuthState_update.
  - intros w w'. subst w'. unfold Auth.getAuthToken.
    by rewrite isLoggedIn_update, getLocalAuthState_update.
Qed.

End SessionStore.

(** ** Pagination parameters *)

Section Pagination.

Import useItems.

Lemma getItemsQueryParams_limit (o : QueryOptions) :
  params_limit (getItemsQueryParams o) = limit o.
Proof. reflexivity. Qed.

(** Neither [skip] nor [page]: [undefined - 1] is [NaN]. *)
Lemma getItemsQueryParams_neither (l : Z) :
  getItemsQueryParams (mkQueryOptions l None None) = mkQueryParams NaN l.
Proof. reflexivity. Qed.

(** C6: a provided [skip] (zero included) is used as it is and wins over
    any [page]; with only [page] the result skips [(page - 1) * limit];
    the three sample calls give the documented results. *)
Theorem getItemsQueryParams_spec :
  (∀ (l s : Z) (p : option Z),
     getItemsQueryParams (mkQueryOptions l p (Some s)) = mkQueryParams (Num s) l)
  ∧ (∀ (l : Z) (p : option Z),
       getItemsQueryParams (mkQueryOptions l p (Some 0)) = mkQueryParams (Num 0) l)
  ∧ (∀ (l p : Z),
       getItemsQueryParams (mkQueryOptions l (Some p) None)
       = mkQueryParams (Num ((p - 1) * l)) l)
  ∧ getItemsQueryParams (mkQueryOptions 5 (Some 1) None) = mkQueryParams (Num 0) 5
  ∧ getItemsQueryParams (mkQueryOptions 5 (Some 3) None) = mkQueryParams (Num 10) 5
  ∧ getItemsQueryParams (mkQueryOptions 5 (Some 99) (Some 7)) = mkQueryParams (Num 7) 5.
Proof. repeat split. Qed.

End Pagination.

(** ** The retry predicate *)

Section Retry.

Implicit Types (retryCount : Z) (error : ApiError).

Lemma retry_same_in_both_hooks retryCount error :
  useCustomQuery.retry retryCount error = useCurrentUser.retry retryCount error.
Proof. reflexivity. Qed.

Lemma retry_401 retryCount error :
  status error = 401 → useCustomQuery.retry retryCount error = false.
Proof. intros H. unfold useCustomQuery.retry. by rewrite H. Qed.

Lemma retry_other retryCount error :
  status error ≠ 401 →
  useCustomQuery.retry retryCount error = bool_decide (retryCount ≤ 3)%Z.
Proof.
  intros H. unfold useCustomQuery.retry.
  destruct (Z.eqb_spec (status error) 401) as [|_]; [done|].
  destruct (Z.leb_spec retryCount 3).
  - by rewrite bool_decide_eq_true_2.
  - rewrite bool_decide_eq_false_2; [done | lia].
Qed.

Example retry_500_counts :
  map (λ n, useCustomQuery.retry n server_error) [0; 1; 2; 3; 4; 5]
  = [true; true; true; true; false; false].
Proof. reflexivity. Qed.

(** What the counts amount to depends on where the caller starts
    counting: three retries from 1, four from 0. *)
Example retry_500_granted :
  granted_retries useCustomQuery.retry 1 server_error 10 = 3%nat
  ∧ granted_retries useCustomQuery.retry 0 server_error 10 = 4%nat
  ∧ granted_retries useCustomQuery.retry 0 unauthorized 10 = 0%nat.
Proof. repeat split. Qed.

Example retry_401_counts :
  map (λ n, useCustomQuery.retry n unauthorized) [0; 1; 2; 3; 4; 5]
  = [false; false; false; false; false; false].
Proof. reflexivity. Qed.

(** The truth table of the predicate: for every [retryCount], the retry
    predicate of the wrapper (and the identical one of [useCurrentUser])
    answers [false] on a 401; on any other status it answers [true] while
    [retryCount <= 3] and [false] after. *)
Lemma retry_predicate_table :
  ∀ retryCount error,
    (status error = 401 →
       useCustomQuery.retry retryCount error = false
       ∧ useCurrentUser.retry retryCount error = false)
    ∧ (status error ≠ 401 →
         (useCustomQuery.retry retryCount error = true ↔ (retryCount ≤ 3)%Z)
         ∧ (useCustomQuery.retry retryCount error = false ↔ (3 < retryCount)%Z)
         ∧ useCurrentUser.retry retryCount error
           = useCustomQuery.retry retryCount error).
Proof.
  intros retryCount error. split.
  - intros H. split; [by apply retry_401|].
    unfold useCurrentUser.retry. by rewrite H.
  - intros H. rewrite retry_other by done. repeat split.
    + apply bool_decide_eq_true_1.
    + apply bool_decide_eq_true_2.
    + rewrite bool_decide_eq_false. lia.
    + intros ?. apply bool_decide_eq_false_2. lia.
    + rewrite <- (retry_other retryCount error) by done. reflexivity.
Qed.

End Retry.

(** ** The query cache *)

Section QueryCache.

Implicit Types (w : World) (key k : QueryKey).

Lemma matches_refl key : matches key key = true.
Proof. by apply bool_decide_eq_true_2. Qed.

Lemma new_events_app w w' (l : list Event) :
  trace w' = trace w ++ l → new_events w w' = l.
Proof. intros H. unfold new_events. rewrite H. apply drop_app_length. Qed.

Lemma lookup_invalidateQueries key w k :
  queryCache (invalidateQueries key w) !! k
  = (λ q, if matches key k then mark_invalidated q else q) <$> queryCache w !! k.
Proof.
  unfold invalidateQueries; simpl. rewrite map_lookup_imap.
  by destruct (queryCache w !! k).
Qed.

Lemma lookup_removeQueries key w k :
  queryCache (removeQueries key w) !! k
  = if matches key k then None else queryCache w !! k.
Proof.
  unfold removeQueries; simpl.
  destruct (matches key k) eqn:Hm.
  - apply map_lookup_filter_None. right. intros x _; simpl. congruence.
  - destruct (queryCache w !! k) as [q|] eqn:Hq.
    + by apply map_lookup_filter_Some.
    + apply map_lookup_filter_None. by left.
Qed.

(** An invalidated entry stays in the cache. *)
Lemma invalidateQueries_keeps_entries key w k :
  is_Some (queryCache (invalidateQueries key w) !! k) ↔ is_Some (queryCache w !! k).
Proof. rewrite lookup_invalidateQueries. apply fmap_is_Some. Qed.

(** A removed entry is absent. *)
Lemma removeQueries_absent key w :
  queryCache (removeQueries key w) !! key = None.
Proof. by rewrite lookup_removeQueries, matches_refl. Qed.

Lemma invalidateQueries_twice_cache key w :
  queryCache (invalidateQueries key (invalidateQueries key w))
  = queryCache (invalidateQueries key w).
Proof.
  apply map_eq. intros k. rewrite !lookup_invalidateQueries.
  destruct (queryCache w !! k) as [q|]; simpl; [|done].
  by destruct (matches key k).
Qed.

Lemma removeQueries_twice_cache key w :
  queryCache (removeQueries key (removeQueries key w))
  = queryCache (removeQueries key w).
Proof.
  apply map_eq. intros k. rewrite !lookup_removeQueries.
  by destruct (matches key k).
Qed.

Lemma invalidateQueries_localStorage key w :
  localStorage (invalidateQueries key w) = localStorage w.
Proof. reflexivity. Qed.

Lemma removeQueries_localStorage key w :
  localStorage (removeQueries key w) = localStorage w.
Proof. reflexivity. Qed.

End QueryCache.

(** ** Logout *)

Section Logout.

Implicit Types (w : World) (r : AuthRevision).

Lemma useAuth_logout_trace w :
  trace (useAuth.logout w)
  = trace w ++ [ELogout; EInvalidateQueries usersKeys.current; ENavigate "/login"].
Proof.
  unfold useAuth.logout, navigate, invalidateQueries, emit; simpl.
  by rewrite <- !app_assoc.
Qed.

Lemma useAuthRouter_logout_trace w :
  trace (useAuthRouter.logout w)
  = trace w ++ [ELogout; ERemoveQueries usersKeys.current; ERouterInvalidate].
Proof.
  unfold useAuthRouter.logout, useAuthRouter.router_invalidate,
    useCurrentUser.remove, removeQueries, emit; simpl.
  by rewrite <- !app_assoc.
Qed.

Lemma useAuth_logout_localStorage w :
  localStorage (useAuth.logout w) = delete "authState" (localStorage w).
Proof. reflexivity. Qed.

Lemma useAuthRouter_logout_localStorage w :
  localStorage (useAuthRouter.logout w) = delete "access_token" (localStorage w).
Proof. reflexivity. Qed.

Lemma useAuth_logout_cache w k :
  queryCache (useAuth.logout w) !! k
  = (λ q, if matches usersKeys.current k then mark_invalidated q else q)
      <$> queryCache w !! k.
Proof.
  unfold useAuth.logout, navigate, emit; simpl.
  apply (lookup_invalidateQueries usersKeys.current
           (Auth.updateLocalAuthState None (emit ELogout w)) k).
Qed.

Lemma useAuthRouter_logout_cache w k :
  queryCache (useAuthRouter.logout w) !! k
  = if matches usersKeys.current k then None else queryCache w !! k.
Proof.
  unfold useAuthRouter.logout, useAuthRouter.router_invalidate, emit; simpl.
  apply (lookup_removeQueries usersKeys.current
           (set_localStorage (delete "access_token") (emit ELogout w)) k).
Qed.

Lemma logout_not_logged_in r w : isLoggedIn r (logout r w) = false.
Proof.
  destruct r; simpl.
  - unfold Auth.isLoggedIn, Auth.getAuthToken, Auth.getLocalAuthState.
    by rewrite useAuth_logout_localStorage, lookup_delete_eq.
  - unfold useAuthRouter.isLoggedIn.
    by rewrite useAuthRouter_logout_localStorage, lookup_delete_eq.
Qed.


Lemma logout_trace r w :
  ∃ l, trace (logout r w) = trace w ++ ELogout :: l
       ∧ count_events is_logout l = 0%nat
       ∧ count_events is_request l = 0%nat.
Proof.
  destruct r; unfold logout.
  - eexists. by rewrite useAuth_logout_trace.
  - eexists. by rewrite useAuthRouter_logout_trace.
Qed.

End Logout.

Section LogoutContract.

Implicit Types (w : World) (r : AuthRevision).

Example useAuth_logout_signed_in :
  let w' := useAuth.logout signed_in_world in
  Auth.getAuthToken w' = None
  ∧ queryCache w' !! usersKeys.current = Some (mkQueryState (Some sample_user) None true)
  ∧ queryCache w' !! items_page_1 = Some cached_items
  ∧ trace w' = [ELogout; EInvalidateQueries usersKeys.current; ENavigate "/login"].
Proof. vm_compute. done. Qed.

Example useAuthRouter_logout_signed_in :
  let w' := useAuthRouter.logout signed_in_world in
  useAuthRouter.isLoggedIn w' = false
  ∧ queryCache w' !! usersKeys.current = None
  ∧ queryCache w' !! items_page_1 = Some cached_items
  ∧ trace w' = [ELogout; ERemoveQueries usersKeys.current; ERouterInvalidate].
Proof. vm_compute. done. Qed.

(** C2, as worded, fails on both revisions: after [logout] of
    [hooks/useAuth.ts] the cached current user is still in the cache
    (stale), and the router-based revision records no navigation to the
    login entry point. *)
Lemma logout_contract_as_worded_fails :
  ¬ logout_removes_current_user NavigateRevision
  ∧ ¬ logout_removes_current_user RouterRevision.
Proof.
  split; intros H; specialize (H signed_in_world); simpl in H.
  - destruct H as (_ & Hcache & _). vm_compute in Hcache. discriminate.
  - destruct H as (_ & _ & Hnav). vm_compute in Hnav. discriminate.
Qed.

(** C2, amended: [logout] of [hooks/useAuth.ts] clears the token, marks
    the cached current-user entry stale without removing it, and
    navigates to the login entry point exactly once; the router-based
    revision clears its token, removes the current-user entry and
    refreshes the router without navigating. *)
Theorem logout_effects :
  (∀ w,
     let w' := useAuth.logout w in
     Auth.getAuthToken w' = None
     ∧ Auth.isLoggedIn w' = false
     ∧ (∀ k, queryCache w' !! k
             = (λ q, if matches usersKeys.current k then mark_invalidated q else q)
                 <$> queryCache w !! k)
     ∧ (∀ q, queryCache w !! usersKeys.current = Some q →
             queryCache w' !! usersKeys.current = Some (mark_invalidated q))
     ∧ new_events w w'
       = [ELogout; EInvalidateQueries usersKeys.current; ENavigate "/login"]
     ∧ count_events (is_navigate_to "/login") (new_events w w') = 1%nat)
  ∧ (∀ w,
       let w' := useAuthRouter.logout w in
       localStorage w' !! "access_token" = None
       ∧ useAuthRouter.isLoggedIn w' = false
       ∧ queryCache w' !! usersKeys.current = None
       ∧ new_events w w'
         = [ELogout; ERemoveQueries usersKeys.current; ERouterInvalidate]
       ∧ count_events (is_navigate_to "/login") (new_events w w') = 0%nat).
Proof.
  split; intros w w'; subst w'.
  - rewrite (new_events_app _ _ _ (useAuth_logout_trace w)).
    split_and!; try done.
    + unfold Auth.getAuthToken, Auth.getLocalAuthState.
      by rewrite useAuth_logout_localStorage, lookup_delete_eq.
    + apply (logout_not_logged_in NavigateRevision).
    + apply useAuth_logout_cache.
    + intros q Hq. by rewrite useAuth_logout_cache, Hq, matches_refl.
  - rewrite (new_events_app _ _ _ (useAuthRouter_logout_trace w)).
    split_and!; try done.
    + by rewrite useAuthRouter_logout_localStorage, lookup_delete_eq.
    + apply (logout_not_logged_in RouterRevision).
    + by rewrite useAuthRouter_logout_cache, matches_refl.
Qed.

(** On the state alone: a second [logout] leaves the session store and
    the cache as the first one left them and repeats the same calls; on a
    session that is already logged out the store is not changed at all.
    Holds for both revisions. *)
Lemma logout_twice_same_state :
  ∀ r w,
    let w1 := logout r w in
    let w2 := logout r w1 in
    localStorage w2 = localStorage w1
    ∧ queryCache w2 = queryCache w1
    ∧ authError w2 = authError w1
    ∧ isLoggedIn r w2 = false
    ∧ new_events w1 w2 = new_events w w1
    ∧ count_events is_request (new_events w1 w2) = 0%nat
    ∧ (isLoggedIn r w = false → localStorage w1 = localStorage w).
Proof.
  intros r w w1 w2. subst w1 w2. destruct r; unfold logout.
  - rewrite !(new_events_app _ _ _ (useAuth_logout_trace _)).
    split_and!; try done.
    + rewrite !useAuth_logout_localStorage. apply delete_id, lookup_delete_eq.
    + apply map_eq. intros k. rewrite !useAuth_logout_cache.
      destruct (queryCache w !! k) as [q|]; simpl; [|done].
      by destruct (matches _ _).
    + apply (logout_not_logged_in NavigateRevision).
    + unfold isLoggedIn, Auth.isLoggedIn, Auth.getAuthToken, Auth.getLocalAuthState.
      rewrite useAuth_logout_localStorage.
      destruct (localStorage w !! "authState") eqn:E; [done|].
      intros _. by apply delete_id.
  - rewrite !(new_events_app _ _ _ (useAuthRouter_logout_trace _)).
    split_and!; try done.
    + rewrite !useAuthRouter_logout_localStorage.
      apply delete_id, lookup_delete_eq.
    + apply map_eq. intros k. rewrite !useAuthRouter_logout_cache.
      by destruct (matches _ _).
    + apply (logout_not_logged_in RouterRevision).
    + unfold isLoggedIn, useAuthRouter.isLoggedIn.
      rewrite useAuthRouter_logout_localStorage.
      destruct (localStorage w !! "access_token") eqn:E; [done|].
      intros _. by apply delete_id.
Qed.

End LogoutContract.

(** ** The 401 reaction of the wrapper *)

Section UnauthorizedReaction.

Implicit Types (w : World) (r : AuthRevision) (options : UseQueryOptions).

Lemma status_is_401_true (error : ApiError) :
  status error = 401 → status_is_401 (Some error) = true.
Proof. intros H; simpl. by rewrite H. Qed.

Lemma effect_signed_in r options (error : ApiError) w :
  status error = 401 → isLoggedIn r w = true →
  useCustomQuery.effect r options (Some error) w
  = logout r (useCustomQuery.remove options (useCustomQuery.invalidate options w)).
Proof.
  intros H401 Hin. unfold useCustomQuery.effect.
  by rewrite (status_is_401_true _ H401), Hin.
Qed.

Lemma effect_signed_out r options (error : ApiError) w :
  status error = 401 → isLoggedIn r w = false →
  useCustomQuery.effect r options (Some error) w = useCustomQuery.remove options w.
Proof.
  intros H401 Hout. unfold useCustomQuery.effect.
  by rewrite (status_is_401_true _ H401), Hout.
Qed.

(** Without a 401 the effect does nothing. *)
Lemma effect_other_status r options (error : option ApiError) w :
  status_is_401 error = false → useCustomQuery.effect r options error w = w.
Proof. intros H. unfold useCustomQuery.effect. by rewrite H. Qed.


Example effect_on_signed_in_world :
  let w' := useCustomQuery.effect NavigateRevision items_options (Some unauthorized)
              signed_in_world in
  trace w' = [EInvalidateQueries items_page_1; ERemoveQueries items_page_1; ELogout;
              EInvalidateQueries usersKeys.current; ENavigate "/login"]
  ∧ queryCache w' !! items_page_1 = None
  ∧ Auth.getAuthToken w' = None.
Proof. vm_compute. done. Qed.


End UnauthorizedReaction.

(** ** Gating of the wrapped query *)

Section Gating.

Implicit Types (w : World) (r : AuthRevision) (options : UseQueryOptions).

Lemma useQuery_disabled (m : MergedOptions) (outcome : Outcome JsValue) w :
  is_enabled m = false → useQuery m outcome w = w.
Proof. intros H. unfold useQuery. by rewrite H. Qed.

Lemma useQuery_enabled_requests (m : MergedOptions) (outcome : Outcome JsValue) w :
  is_enabled m = true →
  new_events w (useQuery m outcome w) = [ERequest "queryFn"]
  ∧ is_Some (queryCache (useQuery m outcome w) !! merged_queryKey m).
Proof.
  intros H. unfold useQuery. rewrite H. split.
  - by apply new_events_app.
  - simpl. rewrite lookup_insert_eq. by eexists.
Qed.

(** An [enabled] property whose value is [undefined] also replaces the
    default, and the library treats it as enabled. *)
Example enabled_undefined_overrides :
  is_enabled (useCustomQuery.merged_options NavigateRevision
                (mkUseQueryOptions items_page_1 (Some None) None) anonymous_world)
  = true.
Proof. reflexivity. Qed.

(** C4, as worded, fails: options carrying [enabled: true] give an
    enabled query on an anonymous session, which then issues its request
    and fills the cache. *)
Lemma gating_for_all_options_fails :
  ¬ gated_for_all_options NavigateRevision
  ∧ ¬ gated_for_all_options RouterRevision
  ∧ (let w' := (useCustomQuery.render NavigateRevision forced_options
                  (Resolved (JArr [])) anonymous_world).2 in
     Auth.isLoggedIn anonymous_world = false
     ∧ trace w' = [ERequest "queryFn"]
     ∧ queryCache w' !! items_page_1 = Some (mkQueryState (Some (JArr [])) None false)).
Proof.
  split_and!.
  - intros H.
    destruct (H forced_options (Resolved JNull) anonymous_world eq_refl) as [He _].
    vm_compute in He. discriminate.
  - intros H.
    destruct (H forced_options (Resolved JNull) anonymous_world eq_refl) as [He _].
    vm_compute in He. discriminate.
  - vm_compute. done.
Qed.

(** C4, amended: when the caller's options carry no [enabled] property,
    the query is enabled exactly while [isLoggedIn()] is true, and with
    the token absent it is created disabled: no request is issued and the
    cache is not touched.  An [enabled] property supplied by the caller
    replaces that default. *)
Theorem gating_without_enabled_option :
  ∀ r (key : QueryKey) (retry : option RetryOption) (outcome : Outcome JsValue) w,
    let options := mkUseQueryOptions key None retry in
    let m := useCustomQuery.merged_options r options w in
    merged_enabled m = Some (isLoggedIn r w)
    ∧ is_enabled m = isLoggedIn r w
    ∧ (isLoggedIn r w = false →
         (useCustomQuery.render r options outcome w).2 = w
         ∧ new_events w (useCustomQuery.render r options outcome w).2 = []
         ∧ queryCache (useCustomQuery.render r options outcome w).2 = queryCache w)
    ∧ (isLoggedIn r w = true →
         new_events w (useCustomQuery.render r options outcome w).2
         = [ERequest "queryFn"])
    ∧ (∀ e : option bool,
         merged_enabled
           (useCustomQuery.merged_options r (mkUseQueryOptions key (Some e) retry) w)
         = e).
Proof.
  intros r key retry outcome w options m. subst options m.
  split_and!; try done.
  - unfold is_enabled; simpl. by destruct (isLoggedIn r w).
  - intros Hout. unfold useCustomQuery.render; simpl.
    rewrite useQuery_disabled.
    + split_and!; try done. unfold new_events. apply drop_all.
    + unfold is_enabled; simpl. by rewrite Hout.
  - intros Hin. unfold useCustomQuery.render; simpl.
    apply useQuery_enabled_requests. unfold is_enabled; simpl. by rewrite Hin.
Qed.

End Gating.

(** ** Failed login *)

Section FailedLogin.

Implicit Types (w : World) (err : ApiError).

(** The value [onError] hands to [setError]. *)
Lemma login_onError_value err w :
  authError (useAuth.login_onError err w)
  = if isAxiosError err then JStr (message err)
    else if Array_isArray (opt_chain (body err) "detail")
         then JStr "Something went wrong"
         else opt_chain (body err) "detail".
Proof.
  unfold useAuth.login_onError, error_detail; simpl.
  by destruct (isAxiosError err).
Qed.

Lemma login_onError_same_in_both_revisions err w :
  useAuthRouter.login_onError err w = useAuth.login_onError err w.
Proof. reflexivity. Qed.

Lemma useAuth_loginMutation_rejected err w :
  useAuth.loginMutation (Rejected err) w
  = useAuth.login_onError err (emit (ERequest "LoginService.loginAccessToken") w).
Proof. reflexivity. Qed.

Lemma useAuthRouter_loginMutation_rejected err w :
  useAuthRouter.loginMutation (Rejected err) w
  = useAuth.login_onError err (emit (ERequest "LoginService.loginAccessToken") w).
Proof. reflexivity. Qed.

Example failed_login_samples :
  map (λ err, authError (useAuth.loginMutation (Rejected err) anonymous_world))
      [bad_credentials; validation_error; network_error; server_error]
  = [JStr "Incorrect email or password"; JStr "Something went wrong";
     JStr "Network Error"; JUndefined].
Proof. reflexivity. Qed.

(** C7, as worded, fails: a rejected login whose body carries no
    [detail] (a plain-text server error) stores [undefined], not a
    string, in both revisions. *)
Lemma failed_login_may_store_undefined :
  ¬ failed_login_stores_string useAuth.loginMutation
  ∧ ¬ failed_login_stores_string useAuthRouter.loginMutation
  ∧ authError (useAuth.loginMutation (Rejected server_error) anonymous_world)
    = JUndefined.
Proof.
  split_and!.
  - intros H. destruct (H server_error anonymous_world) as (_ & _ & Hs).
    vm_compute in Hs. discriminate.
  - intros H. destruct (H server_error anonymous_world) as (_ & _ & Hs).
    vm_compute in Hs. discriminate.
  - reflexivity.
Qed.

(** C7, amended: a failed login leaves the store and the cache as they
    were, navigates nowhere, and stores as the controller's error the
    transport message for a transport-level error, otherwise the generic
    message when the body's [detail] is an array, otherwise the body's
    [detail] as it is, which is a string whenever the body carries a
    string [detail]; [resetError()] sets the error back to [null].  Holds
    for both revisions. *)
Theorem failed_login_effects :
  ∀ err w,
    let extracted :=
      if isAxiosError err then JStr (message err)
      else if Array_isArray (opt_chain (body err) "detail")
           then JStr "Something went wrong"
           else opt_chain (body err) "detail" in
    let transition (w' : World) :=
      localStorage w' = localStorage w
      ∧ queryCache w' = queryCache w
      ∧ new_events w w' = [ERequest "LoginService.loginAccessToken"]
      ∧ count_events is_navigate (new_events w w') = 0%nat
      ∧ authError w' = extracted in
    transition (useAuth.loginMutation (Rejected err) w)
    ∧ transition (useAuthRouter.loginMutation (Rejected err) w)
    ∧ (isAxiosError err = true → extracted = JStr (message err))
    ∧ (isAxiosError err = false →
         (∀ items, opt_chain (body err) "detail" = JArr items →
                   extracted = JStr "Something went wrong")
         ∧ (∀ s, opt_chain (body err) "detail" = JStr s → extracted = JStr s))
    ∧ (isAxiosError err = true ∨ Array_isArray (opt_chain (body err) "detail") = true
         ∨ is_string (opt_chain (body err) "detail") = true →
       is_string extracted = true)
    ∧ authError (useAuth.resetError (useAuth.loginMutation (Rejected err) w)) = JNull
    ∧ authError (useAuthRouter.resetError
                   (useAuthRouter.loginMutation (Rejected err) w)) = JNull.
Proof.
  intros err w extracted transition. subst extracted transition.
  rewrite useAuth_loginMutation_rejected, useAuthRouter_loginMutation_rejected.
  set (w0 := emit (ERequest "LoginService.loginAccessToken") w).
  assert (Hev : new_events w (useAuth.login_onError err w0)
                = [ERequest "LoginService.loginAccessToken"])
    by by apply new_events_app.
  cbv zeta. rewrite Hev, !login_onError_value.
  split_and!; try done.
  - by intros ->.
  - intros ->. split.
    + by intros items ->.
    + by intros s ->.
  - destruct (isAxiosError err); [done|].
    destruct (opt_chain (body err) "detail"); simpl; intros [?|[?|?]]; done.
Qed.

End FailedLogin.

(** ** The object returned by the wrapper *)

Section Returned.

Implicit Types (w : World) (r : AuthRevision) (options : UseQueryOptions)
  (q : gmap string Field).

Lemma returned_invalidate options q :
  useCustomQuery.returned options q !! "invalidate"
  = Some (FAction (useCustomQuery.invalidate options)).
Proof. unfold useCustomQuery.returned. apply lookup_insert_eq. Qed.

Lemma returned_error options q :
  useCustomQuery.returned options q !! "error"
  = Some (default (FVal JUndefined) (q !! "error")).
Proof.
  unfold useCustomQuery.returned. rewrite lookup_insert_ne by done.
  rewrite lookup_union_r by apply lookup_delete_eq.
  apply lookup_singleton_eq.
Qed.

(** Every other property is the one of the [useQuery] result. *)
Lemma returned_other options q (name : string) :
  name ≠ "invalidate" → name ≠ "error" →
  useCustomQuery.returned options q !! name = q !! name.
Proof.
  intros Hi He. unfold useCustomQuery.returned.
  rewrite lookup_insert_ne by done.
  rewrite lookup_union_l by by rewrite lookup_singleton_ne.
  by rewrite lookup_delete_ne.
Qed.

Lemma useQuery_result_no_remove (m : MergedOptions) w :
  useQuery_result m w !! "remove" = None.
Proof. unfold useQuery_result. by rewrite !lookup_insert_ne. Qed.

Lemma useQuery_result_fields (m : MergedOptions) w :
  is_Some (useQuery_result m w !! "data")
  ∧ is_Some (useQuery_result m w !! "isLoading")
  ∧ is_Some (useQuery_result m w !! "isError")
  ∧ is_Some (useQuery_result m w !! "error").
Proof.
  unfold useQuery_result. split_and!.
  - rewrite lookup_insert_eq. by eexists.
  - rewrite !lookup_insert_ne by done. rewrite lookup_singleton_eq. by eexists.
  - rewrite !lookup_insert_ne by done. rewrite lookup_insert_eq. by eexists.
  - rewrite lookup_insert_ne by done. rewrite lookup_insert_eq. by eexists.
Qed.

(** C8, as worded, fails: the object returned for a wrapped items query
    has no [remove] property. *)
Lemma returned_object_lacks_remove :
  ¬ exposes_invalidate_and_remove NavigateRevision
  ∧ ¬ exposes_invalidate_and_remove RouterRevision
  ∧ (useCustomQuery.render NavigateRevision items_options (Resolved (JArr []))
       signed_in_world).1 !! "remove" = None.
Proof.
  assert (Hnone : ∀ r, (useCustomQuery.render r items_options (Resolved (JArr []))
                          signed_in_world).1 !! "remove" = None).
  { intros r. unfold useCustomQuery.render; simpl.
    rewrite returned_other by done. apply useQuery_result_no_remove. }
  split_and!.
  - intros H.
    destruct (H items_options (Resolved (JArr [])) signed_in_world) as [_ [f Hf]].
    rewrite Hnone in Hf. discriminate.
  - intros H.
    destruct (H items_options (Resolved (JArr [])) signed_in_world) as [_ [f Hf]].
    rewrite Hnone in Hf. discriminate.
  - apply Hnone.
Qed.

(** C8, amended: the returned object carries the read result ([data],
    [isLoading], [isError], [error]) and [invalidate], which marks every
    entry under the query's key stale and keeps it cached; [remove],
    which drops every entry under the key, exists only inside the
    wrapper, and the returned object has a [remove] property only if the
    [useQuery] result itself has one.  Both operations act on the cache
    alone, whatever the session state. *)
Theorem returned_object_fields :
  ∀ r options (outcome : Outcome JsValue) w,
    let obj := (useCustomQuery.render r options outcome w).1 in
    let k := o_queryKey options in
    obj !! "invalidate" = Some (FAction (useCustomQuery.invalidate options))
    ∧ is_Some (obj !! "data") ∧ is_Some (obj !! "isLoading")
    ∧ is_Some (obj !! "isError") ∧ is_Some (obj !! "error")
    ∧ obj !! "remove" = None
    ∧ (∀ q, useCustomQuery.returned options q !! "remove" = q !! "remove")
    ∧ (∀ w0 k',
         queryCache (useCustomQuery.invalidate options w0) !! k'
         = (λ s, if matches k k' then mark_invalidated s else s) <$> queryCache w0 !! k')
    ∧ (∀ w0 k',
         queryCache (useCustomQuery.remove options w0) !! k'
         = if matches k k' then None else queryCache w0 !! k')
    ∧ (∀ w0, localStorage (useCustomQuery.invalidate options w0) = localStorage w0
             ∧ localStorage (useCustomQuery.remove options w0) = localStorage w0
             ∧ queryCache (useCustomQuery.remove options w0) !! k = None).
Proof.
  intros r options outcome w obj k. subst obj k.
  unfold useCustomQuery.render; simpl.
  set (m := useCustomQuery.merged_options r options w).
  set (w' := useQuery m outcome w).
  destruct (useQuery_result_fields m w') as (Hd & Hl & He & Herr).
  split_and!.
  - apply returned_invalidate.
  - by rewrite returned_other.
  - by rewrite returned_other.
  - by rewrite returned_other.
  - rewrite returned_error. by eexists.
  - rewrite returned_other by done. apply useQuery_result_no_remove.
  - intros q. by apply returned_other.
  - intros w0 k'. apply lookup_invalidateQueries.
  - intros w0 k'. apply lookup_removeQueries.
  - intros w0. split_and!; try done. apply removeQueries_absent.
Qed.

End Returned.

(** * Further properties of the embedded code *)

(** ** The session store, continued *)

Section SessionStoreFrame.

Implicit Types (w : World) (s : Auth.AuthState).

Lemma world_eq w w' :
  localStorage w = localStorage w' → queryCache w = queryCache w' →
  authError w = authError w' → trace w = trace w' → w = w'.
Proof. destruct w, w'; simpl; by intros -> -> -> ->. Qed.

(** X1: [updateLocalAuthState] changes nothing but the ["authState"]
    entry: every other stored key, the query cache, the controller's
    error and the trace stay as they were. *)
Theorem updateLocalAuthState_frame :
  ∀ s w,
    let w' := Auth.updateLocalAuthState s w in
    delete "authState" (localStorage w') = delete "authState" (localStorage w)
    ∧ (∀ k : string, k ≠ "authState" → localStorage w' !! k = localStorage w !! k)
    ∧ queryCache w' = queryCache w
    ∧ authError w' = authError w
    ∧ trace w' = trace w
    ∧ useAuthRouter.isLoggedIn w' = useAuthRouter.isLoggedIn w.
Proof.
  intros s w w'. subst w'. destruct s as [t|]; simpl.
  - split_and!; try done.
    + apply delete_insert_eq.
    + intros k Hk. by rewrite lookup_insert_ne.
    + unfold useAuthRouter.isLoggedIn; simpl. by rewrite lookup_insert_ne.
  - split_and!; try done.
    + apply delete_delete_eq.
    + intros k Hk. by rewrite lookup_delete_ne.
    + unfold useAuthRouter.isLoggedIn; simpl. by rewrite lookup_delete_ne.
Qed.

(** X2: of two updates in a row only the second counts, and writing
    back the state that was read changes nothing. *)
Theorem updateLocalAuthState_last_write_wins :
  ∀ s1 s2 w,
    Auth.updateLocalAuthState s2 (Auth.updateLocalAuthState s1 w)
    = Auth.updateLocalAuthState s2 w
    ∧ Auth.updateLocalAuthState (Auth.getLocalAuthState w) w = w.
Proof.
  intros s1 s2 w. split.
  - apply world_eq; try by destruct s1, s2.
    destruct s1 as [t1|], s2 as [t2|]; simpl.
    + apply insert_insert_eq.
    + apply delete_insert_eq.
    + apply insert_delete_eq.
    + apply delete_delete_eq.
  - unfold Auth.getLocalAuthState.
    destruct (localStorage w !! "authState") as [t|] eqn:E;
      apply world_eq; simpl; try done.
    + by apply insert_id.
    + by apply delete_id.
Qed.

End SessionStoreFrame.

(** ** Login, registration and the two logouts *)

Section AuthController.

Implicit Types (w : World) (t : string) (err : ApiError).

Lemma matches_true (filter key : QueryKey) :
  matches filter key = true ↔ filter `prefix_of` key.
Proof. apply bool_decide_eq_true. Qed.

Lemma matches_app (filter rest : QueryKey) : matches filter (filter ++ rest) = true.
Proof. apply matches_true. by exists rest. Qed.

Lemma matches_head_ne (a b : KeySeg) (filter key : QueryKey) :
  a ≠ b → matches (a :: filter) (b :: key) = false.
Proof.
  intros Hne. apply bool_decide_eq_false. intros [rest Hrest].
  simpl in Hrest. congruence.
Qed.

Lemma signUpMutation_cache (response : Outcome unit) w (k : QueryKey) :
  queryCache (useAuth.signUpMutation response w) !! k
  = (λ q, if matches usersKeys.all k then mark_invalidated q else q)
      <$> queryCache w !! k.
Proof.
  unfold useAuth.signUpMutation, useAuth.signUp_onSettled.
  rewrite lookup_invalidateQueries. by destruct response.
Qed.

(** X3: a successful login stores the returned token, navigates to
    ["/"] exactly once and nowhere else, and touches neither the query
    cache nor the controller's error, so a message left by an earlier
    failed attempt is still there. *)
Theorem login_success_effects :
  ∀ t w,
    let w' := useAuth.loginMutation (Resolved t) w in
    Auth.getAuthToken w' = Some t
    ∧ Auth.isLoggedIn w' = true
    ∧ queryCache w' = queryCache w
    ∧ authError w' = authError w
    ∧ new_events w w' = [ERequest "LoginService.loginAccessToken"; ENavigate "/"]
    ∧ (∀ err,
         authError (useAuth.loginMutation (Resolved t)
                      (useAuth.loginMutation (Rejected err) w))
         = authError (useAuth.loginMutation (Rejected err) w)).
Proof.
  intros t w w'. subst w'. split_and!; try done.
  - unfold Auth.getAuthToken, Auth.getLocalAuthState; simpl.
    apply lookup_insert_eq.
  - unfold Auth.isLoggedIn, Auth.getAuthToken, Auth.getLocalAuthState; simpl.
    by rewrite lookup_insert_eq.
  - apply new_events_app.
    unfold useAuth.loginMutation, useAuth.login_onSuccess, navigate, emit; simpl.
    by rewrite <- app_assoc.
Qed.

(** X4: logging in and then out again leaves the store as a logout
    alone would: without a token, every other key as before; on a session
    that had no token the store ends exactly as it started.  The same for
    the router-based revision and its ["access_token"] key. *)
Theorem login_logout_round_trip :
  ∀ t w,
    let w1 := useAuth.logout (useAuth.loginMutation (Resolved t) w) in
    let w2 := useAuthRouter.logout (useAuthRouter.loginMutation (Resolved t) w) in
    localStorage w1 = delete "authState" (localStorage w)
    ∧ Auth.isLoggedIn w1 = false
    ∧ (Auth.isLoggedIn w = false → localStorage w1 = localStorage w)
    ∧ localStorage w2 = delete "access_token" (localStorage w)
    ∧ useAuthRouter.isLoggedIn w2 = false
    ∧ (useAuthRouter.isLoggedIn w = false → localStorage w2 = localStorage w).
Proof.
  intros t w w1 w2. subst w1 w2.
  assert (H1 : localStorage (useAuth.logout (useAuth.loginMutation (Resolved t) w))
               = delete "authState" (localStorage w)).
  { rewrite useAuth_logout_localStorage; simpl. apply delete_insert_eq. }
  assert (H2 : localStorage (useAuthRouter.logout
                               (useAuthRouter.loginMutation (Resolved t) w))
               = delete "access_token" (localStorage w)).
  { rewrite useAuthRouter_logout_localStorage; simpl. apply delete_insert_eq. }
  split_and!.
  - done.
  - apply (logout_not_logged_in NavigateRevision).
  - rewrite H1. unfold Auth.isLoggedIn, Auth.getAuthToken, Auth.getLocalAuthState.
    destruct (localStorage w !! "authState") eqn:E; [done|].
    intros _. by apply delete_id.
  - done.
  - apply (logout_not_logged_in RouterRevision).
  - rewrite H2. unfold useAuthRouter.isLoggedIn.
    destruct (localStorage w !! "access_token") eqn:E; [done|].
    intros _. by apply delete_id.
Qed.

(** X5: whatever the outcome, a registration never touches the stored
    token or the controller's error, removes no cached entry, marks
    exactly the entries under ["users"] stale, and ends with that
    invalidation; only a successful one navigates to ["/login"], and each
    outcome shows one toast. *)
Theorem signUp_settled_effects :
  ∀ (response : Outcome unit) w,
    let w' := useAuth.signUpMutation response w in
    localStorage w' = localStorage w
    ∧ authError w' = authError w
    ∧ (∀ k, queryCache w' !! k
            = (λ q, if matches [KStr "users"] k then mark_invalidated q else q)
                <$> queryCache w !! k)
    ∧ new_events w w'
      = [ERequest "UsersService.registerUser"]
        ++ match response with
           | Resolved _ =>
               [ENavigate "/login";
                EToast "Account created."
                       (JStr "Your account has been created successfully.") "success"]
           | Rejected err =>
               [EToast "Something went wrong." (error_detail err) "error"]
           end
        ++ [EInvalidateQueries [KStr "users"]].
Proof.
  intros response w w'. subst w'. split_and!.
  - by destruct response.
  - by destruct response.
  - apply signUpMutation_cache.
  - apply new_events_app. destruct response; simpl; by rewrite <- !app_assoc.
Qed.

(** X6: a failed registration hands the extracted detail to the toast
    as it is: an array of validation errors is shown uncollapsed, where
    the login handler replaces it by ["Something went wrong"]. *)
Theorem signUp_error_detail_not_collapsed :
  ∀ err (items : list JsValue) w,
    isAxiosError err = false →
    opt_chain (body err) "detail" = JArr items →
    new_events w (useAuth.signUpMutation (Rejected err) w)
    = [ERequest "UsersService.registerUser";
       EToast "Something went wrong." (JArr items) "error";
       EInvalidateQueries [KStr "users"]]
    ∧ authError (useAuth.loginMutation (Rejected err) w) = JStr "Something went wrong".
Proof.
  intros err items w Hax Hd. split.
  - apply new_events_app.
    unfold useAuth.signUpMutation, useAuth.signUp_onSettled, useAuth.signUp_onError,
      error_detail.
    rewrite Hax, Hd. simpl. by rewrite <- !app_assoc.
  - rewrite useAuth_loginMutation_rejected, login_onError_value. by rewrite Hax, Hd.
Qed.

Lemma signUp_error_detail_not_collapsed_witness :
  new_events anonymous_world (useAuth.signUpMutation (Rejected validation_error)
                                anonymous_world)
  = [ERequest "UsersService.registerUser";
     EToast "Something went wrong." (JArr [JObj [("msg", JStr "field required")]]) "error";
     EInvalidateQueries [KStr "users"]]
  ∧ authError (useAuth.loginMutation (Rejected validation_error) anonymous_world)
    = JStr "Something went wrong".
Proof.
  exact (signUp_error_detail_not_collapsed validation_error
           [JObj [("msg", JStr "field required")]] anonymous_world eq_refl eq_refl).
Defined.

(** X7: the invalidation that ends a registration reaches the cached
    current user and every cached page of users, and leaves item pages
    and an entry cached under ["currentUser"] exactly as they were. *)
Theorem signUp_invalidation_scope :
  ∀ (response : Outcome unit) w (p : Z) (o : list (string * Z)),
    let w' := useAuth.signUpMutation response w in
    queryCache w' !! usersKeys.current = mark_invalidated <$> queryCache w !! usersKeys.current
    ∧ queryCache w' !! usersKeys.paginated p
      = mark_invalidated <$> queryCache w !! usersKeys.paginated p
    ∧ queryCache w' !! itemKeys.query o = queryCache w !! itemKeys.query o
    ∧ queryCache w' !! useCurrentUserQuery.legacy_queryKey None
      = queryCache w !! useCurrentUserQuery.legacy_queryKey None.
Proof.
  intros response w p o w'. subst w'. rewrite !signUpMutation_cache.
  split_and!.
  - unfold usersKeys.current. by rewrite matches_app.
  - unfold usersKeys.paginated. by rewrite matches_app.
  - unfold itemKeys.query, itemKeys.all, usersKeys.all. cbn [app].
    rewrite matches_head_ne by done. by destruct (queryCache w !! _).
  - unfold useCurrentUserQuery.legacy_queryKey, usersKeys.all.
    rewrite matches_head_ne by done. by destruct (queryCache w !! _).
Qed.

End AuthController.

(** ** The router-based revision and the current-user query *)

Section RouterRevisionAndCurrentUser.

Implicit Types (w : World) (t : string) (r : AuthRevision).

Lemma logout_cache_other r w (k : QueryKey) :
  matches usersKeys.current k = false →
  queryCache (logout r w) !! k = queryCache w !! k.
Proof.
  intros Hm. destruct r; unfold logout.
  - rewrite useAuth_logout_cache, Hm. by destruct (queryCache w !! k).
  - by rewrite useAuthRouter_logout_cache, Hm.
Qed.

Lemma logout_count r w :
  count_events is_logout (new_events w (logout r w)) = 1%nat.
Proof.
  destruct (logout_trace r w) as (l & Htr & Hl & _).
  rewrite (new_events_app _ _ _ Htr). unfold count_events in *; simpl. by rewrite Hl.
Qed.

Lemma new_events_refl w : new_events w w = [].
Proof. unfold new_events. apply drop_all. Qed.

(** X8: in the router-based revision a successful login stores the
    token under ["access_token"] and refreshes the router once, without
    navigating; the ["authState"] entry read by [utils/auth.ts] is not
    written, so that module's [isLoggedIn] does not change. *)
Theorem router_login_success_effects :
  ∀ t w,
    let w' := useAuthRouter.loginMutation (Resolved t) w in
    localStorage w' !! "access_token" = Some t
    ∧ useAuthRouter.isLoggedIn w' = true
    ∧ localStorage w' !! "authState" = localStorage w !! "authState"
    ∧ Auth.isLoggedIn w' = Auth.isLoggedIn w
    ∧ queryCache w' = queryCache w
    ∧ authError w' = authError w
    ∧ new_events w w' = [ERequest "LoginService.loginAccessToken"; ERouterInvalidate]
    ∧ count_events is_navigate (new_events w w') = 0%nat.
Proof.
  intros t w w'. subst w'.
  assert (Hev : new_events w (useAuthRouter.loginMutation (Resolved t) w)
                = [ERequest "LoginService.loginAccessToken"; ERouterInvalidate]).
  { apply new_events_app.
    unfold useAuthRouter.loginMutation, useAuthRouter.login_onSuccess,
      useAuthRouter.router_invalidate, emit; simpl. by rewrite <- app_assoc. }
  rewrite Hev. split_and!; try done.
  - simpl. apply lookup_insert_eq.
  - unfold useAuthRouter.isLoggedIn; simpl. by rewrite lookup_insert_eq.
  - simpl. by rewrite lookup_insert_ne.
  - unfold Auth.isLoggedIn, Auth.getAuthToken, Auth.getLocalAuthState; simpl.
    by rewrite lookup_insert_ne.
Qed.

(** X9: the effect on [userError] of the router-based revision logs out
    at most once: it does nothing unless the error is a 401 on a logged-in
    session, after it has run the session is logged out and the current
    user is gone from the cache, and running it again on the result
    changes nothing. *)
Theorem userError_effect_at_most_once :
  ∀ (userError : option ApiError) w,
    let w' := useAuthRouter.userError_effect userError w in
    useAuthRouter.userError_effect userError w' = w'
    ∧ (count_events is_logout (new_events w w') ≤ 1)%nat
    ∧ (status_is_401 userError = false → w' = w)
    ∧ (useAuthRouter.isLoggedIn w = false → w' = w)
    ∧ (status_is_401 userError = true → useAuthRouter.isLoggedIn w = true →
         w' = useAuthRouter.logout w
         ∧ useAuthRouter.isLoggedIn w' = false
         ∧ queryCache w' !! usersKeys.current = None).
Proof.
  intros userError w w'. subst w'. unfold useAuthRouter.userError_effect.
  destruct (status_is_401 userError) eqn:H401; cbn [andb].
  - destruct (useAuthRouter.isLoggedIn w) eqn:Hin; cbn [andb].
    + pose proof (logout_not_logged_in RouterRevision w) as Hout.
      pose proof (logout_count RouterRevision w) as Hcount.
      unfold isLoggedIn, logout in Hout, Hcount.
      rewrite Hout. split_and!; try done.
      * by rewrite Hcount.
      * intros _ _. split_and!; try done.
        by rewrite useAuthRouter_logout_cache, matches_refl.
    + rewrite Hin, new_events_refl. split_and!; try done. cbn. lia.
  - rewrite new_events_refl. split_and!; try done. cbn. lia.
Qed.

(** X10: neither logout reaches a current user cached under the
    ["currentUser"] key of the older [useCurrentUser] revisions: that
    entry is exactly as before, not removed and not even marked stale. *)
Theorem logout_misses_legacy_current_user_key :
  ∀ r w,
    queryCache (logout r w) !! useCurrentUserQuery.legacy_queryKey None
    = queryCache w !! useCurrentUserQuery.legacy_queryKey None.
Proof.
  intros r w. apply logout_cache_other.
  unfold useCurrentUserQuery.legacy_queryKey, usersKeys.current, usersKeys.all.
  cbn [app]. by apply matches_head_ne.
Qed.

(** X11: the current-user query that [useAuth] renders with
    [enabled: isLoggedIn()] leaves a logged-out session untouched, and in
    particular does nothing right after a logout; on a logged-in session
    it issues one request and stores the outcome under
    [["users", "current"]]. *)
Theorem useAuth_currentUser_gated :
  ∀ r (outcome : Outcome JsValue) w,
    (isLoggedIn r w = false → useAuth_currentUser r outcome w = w)
    ∧ useAuth_currentUser r outcome (logout r w) = logout r w
    ∧ (isLoggedIn r w = true →
         new_events w (useAuth_currentUser r outcome w) = [ERequest "queryFn"]
         ∧ queryCache (useAuth_currentUser r outcome w) !! usersKeys.current
           = Some (store_outcome outcome (queryCache w !! usersKeys.current))
         ∧ localStorage (useAuth_currentUser r outcome w) = localStorage w).
Proof.
  intros r outcome w.
  assert (Hoff : ∀ w0, isLoggedIn r w0 = false → useAuth_currentUser r outcome w0 = w0).
  { intros w0 H0. unfold useAuth_currentUser, useCurrentUserQuery.render.
    apply useQuery_disabled. unfold is_enabled; simpl. by rewrite H0. }
  split_and!.
  - apply Hoff.
  - apply Hoff, logout_not_logged_in.
  - intros Hin. unfold useAuth_currentUser, useCurrentUserQuery.render, useQuery.
    unfold is_enabled; simpl. rewrite Hin. split_and!; try done.
    + by apply new_events_app.
    + simpl. apply lookup_insert_eq.
Qed.

(** X12: [useCurrentUser] has no gate of its own: called without an
    [enabled] option it issues its request whatever the session state,
    and only [enabled: false] keeps it from running. *)
Theorem useCurrentUser_runs_unless_disabled :
  ∀ (key : option QueryKey) (outcome : Outcome JsValue) w,
    new_events w (useCurrentUserQuery.render key None outcome w) = [ERequest "queryFn"]
    ∧ new_events w (useCurrentUserQuery.render key (Some true) outcome w)
      = [ERequest "queryFn"]
    ∧ queryCache (useCurrentUserQuery.render key None outcome w)
        !! useCurrentUser.queryKey key
      = Some (store_outcome outcome (queryCache w !! useCurrentUser.queryKey key))
    ∧ useCurrentUserQuery.render key (Some false) outcome w = w.
Proof.
  intros key outcome w. split_and!; try done.
  - by apply new_events_app.
  - by apply new_events_app.
  - simpl. apply lookup_insert_eq.
Qed.

End RouterRevisionAndCurrentUser.

(** ** The wrapper's effect, continued *)

Section EffectFrame.

Implicit Types (w : World) (r : AuthRevision) (options : UseQueryOptions).

(** X13: the wrapper's effect acts on a 401 only: with no error, or an
    error of any other status, the world is left as it is, logged in or
    not. *)
Theorem effect_only_on_401 :
  ∀ r options w,
    useCustomQuery.effect r options None w = w
    ∧ (∀ e : ApiError, status e ≠ 401 →
         useCustomQuery.effect r options (Some e) w = w).
Proof.
  intros r options w. split.
  - by apply effect_other_status.
  - intros e He. apply effect_other_status; simpl. by apply Z.eqb_neq.
Qed.

(** X14: the 401 reaction touches only entries under the query's own
    key and under [["users", "current"]]: every other cached entry of the
    session that just ended is exactly as before, in both revisions and
    whether or not the session was still logged in. *)
Theorem effect_keeps_other_entries :
  ∀ r options (e : ApiError) w (k' : QueryKey),
    status e = 401 →
    matches (o_queryKey options) k' = false →
    matches usersKeys.current k' = false →
    queryCache (useCustomQuery.effect r options (Some e) w) !! k' = queryCache w !! k'.
Proof.
  intros r options e w k' H401 Hk Hcur.
  destruct (isLoggedIn r w) eqn:Hin.
  - rewrite (effect_signed_in _ _ _ _ H401 Hin).
    rewrite (logout_cache_other _ _ _ Hcur).
    unfold useCustomQuery.remove, useCustomQuery.invalidate.
    rewrite lookup_removeQueries, Hk, lookup_invalidateQueries, Hk.
    by destruct (queryCache w !! k').
  - rewrite (effect_signed_out _ _ _ _ H401 Hin).
    unfold useCustomQuery.remove. by rewrite lookup_removeQueries, Hk.
Qed.

Lemma effect_keeps_other_entries_witness :
  queryCache (useCustomQuery.effect NavigateRevision
                (mkUseQueryOptions (usersKeys.paginated 1) None None)
                (Some unauthorized) signed_in_world) !! items_page_1
  = Some cached_items.
Proof.
  rewrite (effect_keeps_other_entries NavigateRevision
             (mkUseQueryOptions (usersKeys.paginated 1) None None)
             unauthorized signed_in_world items_page_1 eq_refl eq_refl eq_refl).
  reflexivity.
Defined.

End EffectFrame.

(** ** Item pages *)

Section ItemPages.

Import useItems.

Implicit Types (w : World) (l p q : Z).

(** X15: a page fetched ahead by [prefetchItems] lands under the key
    the hook itself uses for that page, whether the caller names the page
    or gives the equivalent [skip], so the later read finds it. *)
Theorem prefetched_page_is_found :
  ∀ p l (outcome : Outcome JsValue) w,
    let w' := useItemsHook.prefetchItems p l outcome w in
    let by_page := useItemsHook.queryKey None (mkQueryOptions l (Some p) None) in
    let by_skip := useItemsHook.queryKey None (mkQueryOptions l None (Some ((p - 1) * l))) in
    by_page = by_skip
    ∧ queryCache w' !! by_page = Some (store_outcome outcome (queryCache w !! by_page))
    ∧ (∀ v, outcome = Resolved v → (queryCache w' !! by_skip) ≫= data = Some v)
    ∧ new_events w w' = [ERequest "queryFn"]
    ∧ localStorage w' = localStorage w.
Proof.
  intros p l outcome w w' by_page by_skip. subst w' by_page by_skip.
  split_and!; try done.
  - simpl. apply lookup_insert_eq.
  - intros v ->.
    change (useItemsHook.queryKey None (mkQueryOptions l None (Some ((p - 1) * l))))
      with (useItemsHook.prefetchItems_key p l).
    unfold useItemsHook.prefetchItems, prefetchQuery; simpl.
    by rewrite lookup_insert_eq.
  - by apply new_events_app.
Qed.

(** X19: [fetchItems] hands [readItems] the caller's options as they
    are, so a caller who pages by [page] sends no [skip] although the
    query key carries [(page - 1) * limit]; [prefetchItems] sends the
    computed [{ skip, limit }]. *)
Theorem fetchItems_request_carries_no_skip :
  ∀ l p,
    let o := mkQueryOptions l (Some p) None in
    useItemsHook.fetchItems_request o = [("limit", l); ("page", p)]
    ∧ (∀ s, ("skip", s) ∉ useItemsHook.fetchItems_request o)
    ∧ useItemsHook.queryKey None o
      = [KStr "items"; KObj [("skip", (p - 1) * l); ("limit", l)]]
    ∧ useItemsHook.prefetchItems_request p l = [("skip", (p - 1) * l); ("limit", l)].
Proof.
  intros l p o. subst o. split_and!; try done.
  intros s Hs. cbn in Hs.
  apply elem_of_cons in Hs as [Hs | Hs]; [congruence|].
  apply elem_of_cons in Hs as [Hs | Hs]; [congruence|].
  by apply elem_of_nil in Hs.
Qed.

(** X20: the items query is a plain [useQuery]: it is not gated by the
    session and sends its request on an anonymous session as on any
    other, storing the outcome under the hook's key. *)
Theorem fetchItems_not_gated :
  ∀ (key : option QueryKey) (o : QueryOptions) (outcome : Outcome JsValue) w,
    let w' := useItemsHook.fetchItems key o outcome w in
    new_events w w' = [ERequest "queryFn"]
    ∧ queryCache w' !! useItemsHook.queryKey key o
      = Some (store_outcome outcome (queryCache w !! useItemsHook.queryKey key o))
    ∧ localStorage w' = localStorage w
    ∧ new_events anonymous_world (useItemsHook.fetchItems key o outcome anonymous_world)
      = [ERequest "queryFn"].
Proof.
  intros key o outcome w w'. subst w'. split_and!; try done.
  - by apply new_events_app.
  - simpl. apply lookup_insert_eq.
Qed.

End ItemPages.

(** ** The items route *)

Section ItemsTable.

Import useItems ItemsRoute.

Implicit Types (w : World) (page : Z) (count : option Z).

(** X22: the prefetch effect runs exactly when "Next" is enabled, and
    then fetches the page that button leads to, under the key the hook
    will use once the user is there; otherwise it does nothing. *)
Theorem prefetch_effect_targets_next_page :
  ∀ (isPlaceholderData : bool) count page (outcome : Outcome JsValue) w,
    let w' := prefetch_effect isPlaceholderData count page outcome w in
    (∀ next, next_click isPlaceholderData count page = Some next →
       let key := useItemsHook.queryKey None (mkQueryOptions PER_PAGE (Some next) None) in
       next = page + 1
       ∧ new_events w w' = [ERequest "queryFn"]
       ∧ queryCache w' !! key = Some (store_outcome outcome (queryCache w !! key)))
    ∧ (next_click isPlaceholderData count page = None → w' = w).
Proof.
  intros ph count page outcome w w'. subst w'.
  unfold prefetch_effect, next_click.
  destruct (hasNextPage ph count page PER_PAGE); split; try done.
  intros next [= <-]. cbv zeta. split_and!; try done.
  - by apply new_events_app.
  - unfold useItemsHook.prefetchItems, prefetchQuery; simpl.
    apply lookup_insert_eq.
Qed.

(** X24: while [items] is still undefined the count reads as 0, so for
    any page from 0 upwards "Next" is disabled and nothing is prefetched;
    only a negative page enables it. *)
Theorem no_next_page_while_loading :
  ∀ (isPlaceholderData : bool) page (outcome : Outcome JsValue) w,
    hasNextPage isPlaceholderData None page PER_PAGE
    = negb isPlaceholderData && Z.ltb page 0
    ∧ (0 ≤ page →
         next_click isPlaceholderData None page = None
         ∧ prefetch_effect isPlaceholderData None page outcome w = w).
Proof.
  intros ph page outcome w.
  assert (H : hasNextPage ph None page PER_PAGE = negb ph && Z.ltb page 0).
  { unfold hasNextPage, PER_PAGE; simpl. f_equal.
    destruct (Z.ltb_spec (page * 5) 0), (Z.ltb_spec page 0); try done; lia. }
  split; [done|]. intros Hp.
  unfold next_click, prefetch_effect. rewrite H.
  destruct (Z.ltb_spec page 0); [lia|]. by rewrite andb_false_r.
Qed.

(** X25: the description cell never renders empty text: a missing or
    empty description shows ["N/A"] in the dim colour, any other
    description is shown as it is in the inherited colour. *)
Theorem description_cell_never_empty :
  ∀ description : option string,
    description_text description ≠ EmptyString
    ∧ (falsy_description description = true ↔
         description = None ∨ description = Some EmptyString)
    ∧ (falsy_description description = true →
         description_text description = "N/A"
         ∧ description_color description = "ui.dim")
    ∧ (falsy_description description = false →
         Some (description_text description) = description
         ∧ description_color description = "inherit").
Proof.
  intros [[|c rest]|]; simpl; split_and!; try done.
  - split; [by right | done].
  - split; [done | by intros [|]].
  - split; [by left | done].
Qed.

End ItemsTable.

(** * The contracts that depend on the caller and on time *)

(** ** How many retries the predicate grants *)

Section RetryCounts.

Implicit Types (first retryCount : Z) (error : ApiError) (fuel : nat).

Lemma granted_retries_401 first error fuel :
  status error = 401 → granted_retries useCustomQuery.retry first error fuel = 0%nat.
Proof. intros H. destruct fuel; simpl; [done|]. by rewrite retry_401. Qed.

Lemma granted_retries_other fuel : ∀ first error,
  status error ≠ 401 →
  granted_retries useCustomQuery.retry first error fuel
  = Nat.min fuel (Z.to_nat (4 - first)).
Proof.
  induction fuel as [|fuel IH]; intros first error H; cbn [granted_retries]; [done|].
  rewrite retry_other by done. case_bool_decide.
  - rewrite IH by done. lia.
  - lia.
Qed.

(** C3, as worded, fails for a caller that passes 0 on the first
    failure: a persistent server error is then granted four retries. *)
Lemma retry_grants_four_from_zero :
  ¬ grants_at_most_three 0
  ∧ granted_retries useCustomQuery.retry 0 server_error 10 = 4%nat.
Proof.
  split; [|reflexivity].
  intros H. specialize (H server_error 10%nat). vm_compute in H. lia.
Qed.

(** C3, amended: the predicate answers [false] on every 401 and, on any
    other status, [true] exactly while [retryCount <= 3], for all
    [retryCount]; a persistent 401 is granted no retry, and any other
    persistent error is granted [4 - first] retries when the caller
    passes [first] on the first failure and counts up: four from 0, three
    from 1, and at most three only from 1 upwards. *)
Theorem retry_predicate_counts :
  ∀ retryCount error,
    (status error = 401 →
       useCustomQuery.retry retryCount error = false
       ∧ useCurrentUser.retry retryCount error = false
       ∧ ∀ first fuel, granted_retries useCustomQuery.retry first error fuel = 0%nat)
    ∧ (status error ≠ 401 →
         (useCustomQuery.retry retryCount error = true ↔ (retryCount ≤ 3)%Z)
         ∧ (useCustomQuery.retry retryCount error = false ↔ (3 < retryCount)%Z)
         ∧ useCurrentUser.retry retryCount error
           = useCustomQuery.retry retryCount error
         ∧ (∀ first fuel,
              granted_retries useCustomQuery.retry first error fuel
              = Nat.min fuel (Z.to_nat (4 - first)))
         ∧ (∀ fuel, (4 ≤ fuel)%nat →
              granted_retries useCustomQuery.retry 0 error fuel = 4%nat
              ∧ granted_retries useCustomQuery.retry 1 error fuel = 3%nat))
    ∧ (∀ first, grants_at_most_three first ↔ (1 ≤ first)%Z).
Proof.
  intros retryCount error.
  destruct (retry_predicate_table retryCount error) as [H401 Hother].
  split_and!.
  - intros H. destruct (H401 H) as [? ?]. split_and!; try done.
    intros first fuel. by apply granted_retries_401.
  - intros H. destruct (Hother H) as (? & ? & ?). split_and!; try done.
    + intros first fuel. by apply granted_retries_other.
    + intros fuel Hfuel. rewrite !granted_retries_other by done. lia.
  - intros first. split.
    + intros H. specialize (H server_error (Z.to_nat (4 - first))).
      rewrite granted_retries_other in H by done. lia.
    + intros H e fuel. destruct (decide (status e = 401)) as [He|He].
      * rewrite granted_retries_401 by done. lia.
      * rewrite granted_retries_other by done. lia.
Qed.

End RetryCounts.

(** ** Logout and the refetch of observed entries *)

Section LogoutRefetch.

Implicit Types (w : World) (observed : gset QueryKey) (key : QueryKey).

Lemma count_events_app (p : Event → bool) (l1 l2 : list Event) :
  count_events p (l1 ++ l2) = (count_events p l1 + count_events p l2)%nat.
Proof. unfold count_events. by rewrite List.filter_app, length_app. Qed.

Lemma count_requests_replicate (n : nat) :
  count_events is_request (replicate n (ERequest "queryFn")) = n.
Proof. induction n as [|n IH]; [done|]. unfold count_events in *; simpl. by rewrite IH. Qed.

Lemma refetch_count_unobserved observed key w :
  (∀ k, k ∈ observed → matches key k = false) → refetch_count observed key w = 0%nat.
Proof.
  intros H. unfold refetch_count. apply map_size_empty_iff, map_empty. intros k.
  apply map_lookup_filter_None. right. intros q _ [Hm Hk]; simpl in *.
  rewrite (H k Hk) in Hm. discriminate.
Qed.

Lemma useAuth_observers_logged_out w k :
  Auth.isLoggedIn w = false → k ∈ useAuth_observers w → matches usersKeys.current k = false.
Proof. intros Hout. unfold useAuth_observers. rewrite Hout. set_solver. Qed.

Lemma useAuth_logout_observed_events observed w :
  trace (useAuth_logout_observed observed w)
  = trace w ++ [ELogout; EInvalidateQueries usersKeys.current]
      ++ replicate (refetch_count observed usersKeys.current w) (ERequest "queryFn")
      ++ [ENavigate "/login"].
Proof.
  unfold useAuth_logout_observed, navigate, invalidateQueries_observed, emit_requests,
    invalidateQueries, emit; simpl.
  by rewrite <- !app_assoc.
Qed.

(** With nothing to refetch the two logouts are the same. *)
Lemma useAuth_logout_observed_quiet observed w :
  refetch_count observed usersKeys.current w = 0%nat →
  useAuth_logout_observed observed w = useAuth.logout w.
Proof.
  intros H. apply world_eq; try done.
  rewrite useAuth_logout_observed_events, useAuth_logout_trace, H. done.
Qed.

Example second_logout_refetches :
  let observed := useAuth_observers signed_in_world in
  let w1 := useAuth_logout_observed observed signed_in_world in
  Auth.isLoggedIn w1 = false
  ∧ new_events w1 (useAuth_logout_observed observed w1)
    = [ELogout; EInvalidateQueries usersKeys.current; ERequest "queryFn";
       ENavigate "/login"].
Proof. vm_compute. done. Qed.

(** C9, as worded, fails: a [logout] called again before the hook has
    re-rendered finds the current user still observed and requests it
    again, although the token is already gone. *)
Lemma logout_again_may_refetch :
  ¬ logout_again_is_silent
  ∧ (let w1 := useAuth.logout signed_in_world in
     Auth.isLoggedIn w1 = false
     ∧ count_events is_request
         (new_events w1 (useAuth_logout_observed (useAuth_observers signed_in_world) w1))
       = 1%nat).
Proof.
  split.
  - intros H.
    specialize (H (useAuth_observers signed_in_world) (useAuth.logout signed_in_world)
                  eq_refl).
    vm_compute in H. discriminate.
  - vm_compute. done.
Qed.

(** C9, amended: [logout] is idempotent on the state: a second call
    leaves the session store and the cache as the first one left them and
    repeats the same calls, and on a session that is already logged out
    the store is not changed at all (both revisions).  [logout] of
    [hooks/useAuth.ts] sends no request of its own; its invalidation
    requests again each cached entry under [["users", "current"]] that is
    still observed, so the call is silent exactly when there is none, as
    is the case once the hook's own current-user query has been rendered
    on the logged-out session. *)
Theorem logout_idempotent_up_to_refetch :
  (∀ r w,
     let w1 := logout r w in
     let w2 := logout r w1 in
     localStorage w2 = localStorage w1
     ∧ queryCache w2 = queryCache w1
     ∧ authError w2 = authError w1
     ∧ isLoggedIn r w2 = false
     ∧ new_events w1 w2 = new_events w w1
     ∧ (isLoggedIn r w = false → localStorage w1 = localStorage w))
  ∧ (∀ observed w,
       let v1 := useAuth_logout_observed observed w in
       let v2 := useAuth_logout_observed observed v1 in
       localStorage v1 = localStorage (useAuth.logout w)
       ∧ queryCache v1 = queryCache (useAuth.logout w)
       ∧ authError v1 = authError w
       ∧ localStorage v2 = localStorage v1
       ∧ queryCache v2 = queryCache v1
       ∧ new_events w v1
         = [ELogout; EInvalidateQueries usersKeys.current]
           ++ replicate (refetch_count observed usersKeys.current w) (ERequest "queryFn")
           ++ [ENavigate "/login"]
       ∧ count_events is_request (new_events w v1)
         = refetch_count observed usersKeys.current w
       ∧ ((∀ k, k ∈ observed → matches usersKeys.current k = false) →
            v1 = useAuth.logout w
            ∧ count_events is_request (new_events w v1) = 0%nat)
       ∧ (Auth.isLoggedIn w = false →
            count_events is_request
              (new_events w (useAuth_logout_observed (useAuth_observers w) w)) = 0%nat)).
Proof.
  assert (Hcount : ∀ observed w,
            count_events is_request (new_events w (useAuth_logout_observed observed w))
            = refetch_count observed usersKeys.current w).
  { intros observed w.
    rewrite (new_events_app _ _ _ (useAuth_logout_observed_events observed w)).
    rewrite !count_events_app, count_requests_replicate. cbn. lia. }
  split.
  - intros r w w1 w2.
    destruct (logout_twice_same_state r w) as (? & ? & ? & ? & ? & _ & ?).
    by split_and!.
  - intros observed w v1 v2. subst v1 v2.
    destruct (logout_twice_same_state NavigateRevision w) as (Hs & Hc & _).
    unfold logout in Hs, Hc.
    split_and!; try done.
    + by apply new_events_app, useAuth_logout_observed_events.
    + intros Hno.
      pose proof (refetch_count_unobserved observed usersKeys.current w Hno) as H0.
      split; [by apply useAuth_logout_observed_quiet|]. by rewrite Hcount.
    + intros Hout. rewrite Hcount. apply refetch_count_unobserved.
      intros k. by apply useAuth_observers_logged_out.
Qed.

End LogoutRefetch.

(** ** The 401 reaction over time *)

Section ReactionOverTime.

Import useCustomQueryHook.

Implicit Types (w : World) (r : AuthRevision) (options : UseQueryOptions)
  (h : Hook) (e : ApiError).


Lemma isLoggedIn_storage r w w' :
  localStorage w = localStorage w' → isLoggedIn r w = isLoggedIn r w'.
Proof.
  intros H. destruct r; simpl.
  - unfold Auth.isLoggedIn, Auth.getAuthToken, Auth.getLocalAuthState. by rewrite H.
  - unfold useAuthRouter.isLoggedIn. by rewrite H.
Qed.

(** The reaction never reaches the cache of a passed client. *)
Lemma run_passed_client r options (steps : list Step) : ∀ h,
  passed_client (run r options steps h) = passed_client h.
Proof.
  induction steps as [|s steps IH]; intros h; [done|].
  change (run r options (s :: steps) h) with (run r options steps (step r options h s)).
  rewrite IH. destruct s as [error|]; simpl.
  - unfold effect_run. by repeat case_match.
  - unfold chain_settle. by case_match.
Qed.





(** On a logged-out session the render is the one of the wrapped query
    alone: [useAuth()] adds nothing. *)
Lemma render_logged_out r options (user_outcome outcome : Outcome JsValue) w (p : nat) :
  isLoggedIn r w = false →
  render r options user_outcome outcome (mkHook w None p)
  = mkHook (useCustomQuery.render r options outcome w).2 None p.
Proof.
  intros Hout. unfold render; simpl.
  pose proof (useAuth_currentUser_gated r user_outcome w) as [Hoff _].
  by rewrite (Hoff Hout).
Qed.

(** On a logged-in session [useAuth()] requests the current user before
    the wrapped query sends its own request. *)
Lemma render_logged_in_requests r (key : QueryKey) (retry : option RetryOption)
    (user_outcome outcome : Outcome JsValue) w (p : nat) :
  isLoggedIn r w = true →
  new_events w (ambient (render r (mkUseQueryOptions key None retry) user_outcome outcome
                           (mkHook w None p)))
  = [ERequest "queryFn"; ERequest "queryFn"].
Proof.
  intros Hin.
  assert (Htrace : ∀ (m : MergedOptions) (o : Outcome JsValue) w0,
            is_enabled m = true → trace (useQuery m o w0) = trace w0 ++ [ERequest "queryFn"]
                                   ∧ localStorage (useQuery m o w0) = localStorage w0).
  { intros m o w0 Hm. unfold useQuery. by rewrite Hm. }
  unfold render, useQuery_in; cbn [ambient passed_client pending_chains].
  set (w1 := useAuth_currentUser r user_outcome w).
  destruct (Htrace (useCurrentUserQuery.options None (Some (isLoggedIn r w))) user_outcome w)
    as [Ht1 Hs1].
  { unfold is_enabled; simpl. by rewrite Hin. }
  fold (useCurrentUserQuery.render None (Some (isLoggedIn r w)) user_outcome w) in Ht1, Hs1.
  fold (useAuth_currentUser r user_outcome w) in Ht1, Hs1. fold w1 in Ht1, Hs1.
  assert (Hin1 : isLoggedIn r w1 = true).
  { rewrite <- Hin. by apply isLoggedIn_storage. }
  destruct (Htrace (useCustomQuery.merged_options r (mkUseQueryOptions key None retry) w1)
              outcome w1) as [Ht2 _].
  { unfold is_enabled; simpl. by rewrite Hin1. }
  apply new_events_app. rewrite Ht2, Ht1. by rewrite <- app_assoc.
Qed.

(** With a passed client the wrapped query is stored there and not in
    the context client. *)
Lemma render_passed_client r options (user_outcome outcome : Outcome JsValue) w
    (c : gmap QueryKey QueryState) (p : nat) :
  isLoggedIn r w = false →
  let h := render r options user_outcome outcome (mkHook w (Some c) p) in
  queryCache (ambient h) = queryCache w
  ∧ (is_enabled (useCustomQuery.merged_options r options w) = true →
       query_state options h = Some (store_outcome outcome (c !! o_queryKey options))).
Proof.
  intros Hout h. subst h. unfold render; simpl.
  pose proof (useAuth_currentUser_gated r user_outcome w) as [Hoff _].
  rewrite (Hoff Hout). unfold useQuery_in; simpl.
  destruct (is_enabled (useCustomQuery.merged_options r options w)) eqn:He.
  - split; [done|]. intros _. unfold query_state; simpl. apply lookup_insert_eq.
  - split; [done|]. done.
Qed.

End ReactionOverTime.

Section ReactionContract.

Import useCustomQueryHook.

Implicit Types (w : World) (r : AuthRevision) (options : UseQueryOptions) (e : ApiError).

Example two_observations_two_logouts :
  let h := run RouterRevision items_options
             [EffectRuns (Some unauthorized); EffectRuns (Some unauthorized);
              ChainSettles; ChainSettles]
             (mkHook signed_in_world None 0) in
  trace (ambient h)
  = [EInvalidateQueries items_page_1; EInvalidateQueries items_page_1;
     ERemoveQueries items_page_1; ELogout; ERemoveQueries usersKeys.current;
     ERouterInvalidate;
     ERemoveQueries items_page_1; ELogout; ERemoveQueries usersKeys.current;
     ERouterInvalidate].
Proof. vm_compute. done. Qed.




End ReactionContract.
